(** * IOPort: a width-parameterised interface to memory-mapped I/O registers

    Shallow embedding of [ioport.h] (class template
    [IOPort<RegisterType, BitsCount>]) and the properties of its public
    interface.

    - The template parameters are gathered in the class [Template]:
      [RegisterBits] is the size in bits of the unsigned [RegisterType],
      [BitsCount] the number of lines of the port.
    - A register is a memory cell designated by a pointer.  Memory is a
      finite map from addresses to integers; the three pointers of a
      port may designate any cells, also the same one.
    - [std::size_t] values (bit numbers, [BitsCount]) are [N]; register
      values and the intermediate results of the bit expressions are [Z],
      whose bitwise operations are those of an unbounded two's complement
      word.  What is stored through a [RegisterType*] or returned as
      [RegisterType] is reduced modulo [2^RegisterBits], as the conversion
      of an integer to an unsigned type does.
    - The literal [1] in [1 << n] is an [int], whatever the register type
      is.  The class [Platform] gives the size of [int]; [int_shl1] and
      [int_mask] evaluate [1 << n] and [(1 << n) - 1] as [int]
      expressions: exactly while the result is representable, to
      [INT_MIN] when the shift reaches the sign bit, and to a value the
      platform chooses where the language leaves the result undefined.
      A statement that needs the exact power of two carries the
      hypothesis [shift_defined]. *)

From Stdlib Require Import ZArith Lia Bool.
From stdpp Require Import gmap.

Local Open Scope Z_scope.

(** ** Exceptions and the computation monad *)

(** The two exception classes thrown by the interface. *)
Inductive exn : Set :=
  | invalid_argument   (* "Too large bit number" *)
  | runtime_error.     (* "Trying to write value with wrong data direction" *)

Inductive result (A : Type) : Type :=
  | Ok (a : A)
  | Throw (e : exn).
Arguments Ok {A} a.
Arguments Throw {A} e.

(** Addresses of registers and the memory they live in. *)
Abbreviation addr := N (only parsing).
Abbreviation mem := (gmap N Z) (only parsing).

(** A member function: it runs on the memory, returns or throws, and leaves
    a memory behind in both cases (what was written before a [throw]
    stays written). *)
Definition M (A : Type) : Type := mem -> result A * mem.

Definition ret {A} (a : A) : M A := fun m => (Ok a, m).
Definition throw {A} (e : exn) : M A := fun m => (Throw e, m).
Definition bind {A B} (c : M A) (k : A -> M B) : M B :=
  fun m => match c m with
           | (Ok a, m') => k a m'
           | (Throw e, m') => (Throw e, m')
           end.

#[global] Instance M_ret : MRet M := @ret.
#[global] Instance M_bind : MBind M := fun A B k c => bind c k.

(** The value held by the cell at [p]; a cell that is not mapped reads
    as 0. *)
Definition contents (m : mem) (p : addr) : Z := default 0 (m !! p).

(** The object: three pointers and the mask, all set at construction. *)
Record IOPort : Set := mkIOPort {
  DDR : addr;        (* data direction register *)
  PORT : addr;       (* register for writing *)
  PIN : addr;        (* register for reading *)
  bitsMask : Z       (* const RegisterType bitsMask *)
}.

(** The template parameters; an instance is an instantiation of the class
    template. *)
Class Template : Set := {
  RegisterBits : N;   (* size of RegisterType in bits *)
  BitsCount : N       (* number of lines of the port *)
}.

(** The platform: the size of [int], and the values it produces where the
    language leaves an [int] expression undefined.  Nothing is assumed
    about these values. *)
Class Platform : Set := {
  IntBits : N;             (* size of int in bits *)
  shl_overflow : N -> Z;   (* [1 << n] for a shift count [n >= IntBits] *)
  mask_overflow : N -> Z   (* [(1 << n) - 1] once [1 << n] leaves the
                              positive range of int *)
}.

(** The size of [int]; the language guarantees at least 16 bits. *)
Definition int_bits {P : Platform} : Z := Z.of_N (N.max 16 IntBits).

(** [1 << n] is a positive [int]: [2^n <= INT_MAX]. *)
Definition shift_defined {P : Platform} (n : N) : Prop :=
  Z.of_N n < int_bits - 1.

(** The [int] expression [1 << n]: the power of two while it is
    representable, [INT_MIN] when the one reaches the sign bit, and
    undefined by the language for a shift count of the size of [int] or
    more. *)
Definition int_shl1 {P : Platform} (n : N) : Z :=
  if Z.of_N n <? int_bits - 1 then Z.shiftl 1 (Z.of_N n)
  else if Z.of_N n =? int_bits - 1 then - 2 ^ (int_bits - 1)
  else shl_overflow n.

(** The [int] expression [(1 << n) - 1]: exact while [1 << n] is a
    positive [int]; beyond, the subtraction overflows ([INT_MIN - 1]) or
    the shift is undefined. *)
Definition int_mask {P : Platform} (n : N) : Z :=
  if Z.of_N n <? int_bits - 1 then int_shl1 n - 1
  else mask_overflow n.

Section IOPort.

Context {P : Platform} {T : Template}.

(** Conversion of an integer to the unsigned [RegisterType]. *)
Definition to_reg (z : Z) : Z := z mod 2 ^ Z.of_N RegisterBits.

(** Reading and assigning through a register pointer. *)
Definition load (p : addr) : M Z := fun m => (Ok (contents m p), m).
Definition store (p : addr) (v : Z) : M unit :=
  fun m => (Ok tt, <[p := to_reg v]> m).

(** [IOPort(DDR, PORT, PIN)], with the default member initializer
    [bitsMask = (1 << BitsCount) - 1]. *)
Definition IOPort_new (ddr port pin : addr) : IOPort :=
  {| DDR := ddr; PORT := port; PIN := pin;
     bitsMask := to_reg (int_mask BitsCount) |}.

(** The constructor as a call: it has no statement that could throw and
    touches no register. *)
Definition IOPort_ctor (ddr port pin : addr) : M IOPort :=
  ret (IOPort_new ddr port pin).

(** [checkBitNumber] *)
Definition checkBitNumber (bitNumber : N) : M unit :=
  if (BitsCount <=? bitNumber)%N
  then throw invalid_argument
  else ret tt.

(** [setBit] *)
Definition setBit (reg : addr) (bitNumber : N) (value : bool) : M unit :=
  checkBitNumber bitNumber ;;
  if value
  then r ← load reg; store reg (Z.lor r (int_shl1 bitNumber))
  else r ← load reg; store reg (Z.land r (Z.lnot (int_shl1 bitNumber))).

Variable this : IOPort.

(** [RegisterType read() const noexcept] *)
Definition read : M Z :=
  pin ← load (PIN this);
  ret (to_reg (Z.land pin (bitsMask this))).

(** [bool read(const std::size_t bitNumber) const] *)
Definition read_bit (bitNumber : N) : M bool :=
  checkBitNumber bitNumber ;;
  pin ← load (PIN this);
  ret (negb (Z.rem (Z.shiftr pin (Z.of_N bitNumber)) 2 =? 0)).

(** [void write(const RegisterType& value)] *)
Definition write (value : Z) : M unit :=
  ddr ← load (DDR this);
  if negb (Z.land ddr (bitsMask this) =? bitsMask this)
  then throw runtime_error
  else
    port ← load (PORT this);
    let higherBits := Z.land port (Z.lnot (bitsMask this)) in
    store (PORT this) (Z.lor (Z.land value (bitsMask this)) higherBits).

(** [void write(const std::size_t bitNumber, const bool value)].
    The condition of the source reads [DDR_value >> bitNumber % 2 == 0]
    (with the register dereferenced); [%] binds tighter than [>>], which
    binds tighter than [==]. *)
Definition write_bit (bitNumber : N) (value : bool) : M unit :=
  ddr ← load (DDR this);
  if Z.shiftr ddr (Z.of_N (bitNumber mod 2)) =? 0
  then throw runtime_error
  else setBit (PORT this) bitNumber value.

(** [void out() noexcept] *)
Definition out : M unit :=
  ddr ← load (DDR this);
  store (DDR this) (Z.lor ddr (bitsMask this)).

(** [void out(const std::size_t bitNumber)] *)
Definition out_bit (bitNumber : N) : M unit :=
  setBit (DDR this) bitNumber true.

(** [void in() noexcept] *)
Definition in_ : M unit :=
  ddr ← load (DDR this);
  store (DDR this) (Z.land ddr (Z.lnot (bitsMask this))).

(** [void in(const std::size_t bitNumber)] *)
Definition in_bit (bitNumber : N) : M unit :=
  setBit (DDR this) bitNumber false.

(** [void hiZ(const std::size_t bitNumber)] *)
Definition hiZ (bitNumber : N) : M unit :=
  setBit (DDR this) bitNumber false ;;
  setBit (PORT this) bitNumber false.

(** [void pullUp(const std::size_t bitNumber)] *)
Definition pullUp (bitNumber : N) : M unit :=
  setBit (DDR this) bitNumber false ;;
  setBit (PORT this) bitNumber true.

End IOPort.


(** The calls of the public interface, and the memory a call leaves. *)
Inductive call : Set :=
  | call_read
  | call_read_bit (bitNumber : N)
  | call_write (value : Z)
  | call_write_bit (bitNumber : N) (value : bool)
  | call_out
  | call_out_bit (bitNumber : N)
  | call_in
  | call_in_bit (bitNumber : N)
  | call_hiZ (bitNumber : N)
  | call_pullUp (bitNumber : N).

Definition invoke {P : Platform} {T : Template} (this : IOPort) (c : call) : mem -> mem :=
  fun m =>
    match c with
    | call_read => snd (read this m)
    | call_read_bit i => snd (read_bit this i m)
    | call_write v => snd (write this v m)
    | call_write_bit i v => snd (write_bit this i v m)
    | call_out => snd (out this m)
    | call_out_bit i => snd (out_bit this i m)
    | call_in => snd (in_ this m)
    | call_in_bit i => snd (in_bit this i m)
    | call_hiZ i => snd (hiZ this i m)
    | call_pullUp i => snd (pullUp this i m)
    end.

(** A register holds a value of the unsigned [RegisterType]. *)
Definition reg_ok {T : Template} (m : mem) (p : addr) : Prop :=
  0 <= contents m p < 2 ^ Z.of_N RegisterBits.

(** The largest [int] where [int] has [w] bits. *)
Definition INT_MAX (w : Z) : Z := 2 ^ (w - 1) - 1.

(** The value [setBit] assigns to a register that holds [old]. *)
Definition with_bit {P : Platform} {T : Template}
    (old : Z) (i : N) (value : bool) : Z :=
  to_reg
    (if value then Z.lor old (int_shl1 i)
     else Z.land old (Z.lnot (int_shl1 i))).

(** [new] is [old] with bit [i] set to [b] and every other bit as it was. *)
Definition bit_assigned (old new : Z) (i : N) (b : bool) : Prop :=
  Z.testbit new (Z.of_N i) = b
  /\ forall j, j <> Z.of_N i -> Z.testbit new j = Z.testbit old j.

(** The three pointers of a port designate three different cells. *)
Definition distinct_regs (this : IOPort) : Prop :=
  DDR this <> PORT this /\ DDR this <> PIN this /\ PORT this <> PIN this.

(** [m'] holds register values wherever [m] does, with the same bits at
    the positions [>= BitsCount]. *)
Definition high_bits_kept {T : Template} (m m' : mem) : Prop :=
  forall p, reg_ok m p ->
    reg_ok m' p
    /\ forall j, Z.of_N BitsCount <= j ->
         Z.testbit (contents m' p) j = Z.testbit (contents m p) j.

(** ** The instantiation of [main.cpp]

    Five lines on 8-bit registers; [DDRA], [PORTA] and [PINA] are three
    variables of [main], start values 0, 0 and 16. *)

Definition IOPort5bits : Template := {| RegisterBits := 8; BitsCount := 5 |}.

(** A platform with an [int] of 32 bits, on which the overflowing
    initializer of a mask yields -1, every bit set.  No statement of this
    file evaluates [shl_overflow]. *)
Definition int32 : Platform :=
  {| IntBits := 32; shl_overflow := fun _ => 0; mask_overflow := fun _ => -1 |}.

Definition DDRA : addr := 0%N.
Definition PORTA : addr := 1%N.
Definition PINA : addr := 2%N.

Definition portA : IOPort :=
  IOPort_new (P := int32) (T := IOPort5bits) DDRA PORTA PINA.

Definition main_mem : mem :=
  <[DDRA := 0]> (<[PORTA := 0]> (<[PINA := 16]> ∅)).

(** The same registers once line 0 alone, or every line, is an output. *)
Definition line0_out_mem : mem := <[DDRA := 1]> main_mem.
Definition all_out_mem : mem := <[DDRA := 31]> main_mem.

(** An instantiation with more lines than the register has bits. *)
Definition IOPort9bits : Template := {| RegisterBits := 8; BitsCount := 9 |}.

(** ** Calls with their outcome, and composite calls *)

(** A call whose returned value is dropped. *)
Definition void {A} (c : M A) : M unit := bind c (fun _ => ret tt).

(** A call of the public interface as a computation: it returns or throws
    as the member function does. *)
Definition perform {P : Platform} {T : Template} (this : IOPort) (c : call) : M unit :=
  match c with
  | call_read => void (read this)
  | call_read_bit i => void (read_bit this i)
  | call_write v => write this v
  | call_write_bit i v => write_bit this i v
  | call_out => out this
  | call_out_bit i => out_bit this i
  | call_in => in_ this
  | call_in_bit i => in_bit this i
  | call_hiZ i => hiZ this i
  | call_pullUp i => pullUp this i
  end.

(** [f(0); f(1); ...; f(n-1)] *)
Fixpoint each_line (f : N -> M unit) (n : nat) : M unit :=
  match n with
  | O => ret tt
  | S k => bind (each_line f k) (fun _ => f (N.of_nat k))
  end.

(** The port of [main.cpp] with its input pointer on the output register:
    what is read is what was written. *)
Definition loopA : IOPort :=
  IOPort_new (P := int32) (T := IOPort5bits) DDRA PORTA PORTA.

(** An instantiation without lines. *)
Definition IOPort0bits : Template := {| RegisterBits := 8; BitsCount := 0 |}.

(** ** A port of 40 lines on 64-bit registers

    The width is within the size of the register type, as the class
    template asks, and beyond the size of [int]. *)

Definition IOPort40bits : Template :=
  {| RegisterBits := 64; BitsCount := 40 |}.

Definition wideA : IOPort :=
  IOPort_new (P := int32) (T := IOPort40bits) DDRA PORTA PINA.

(** The 40 lines are outputs, the output register is 0 and every bit of
    the input register is 1. *)
Definition wide_mem : mem :=
  <[DDRA := 2 ^ 40 - 1]> (<[PORTA := 0]> (<[PINA := 2 ^ 64 - 1]> ∅)).

(** The same with every bit of the direction register at 1. *)
Definition wide_ones_mem : mem := <[DDRA := 2 ^ 64 - 1]> wide_mem.

(** ** Bit-level facts *)

Section Bits.

Context {P : Platform} {T : Template}.

Lemma to_reg_bits z j :
  Z.testbit (to_reg z) j
  = (j <? Z.of_N RegisterBits) && Z.testbit z j.
Proof. unfold to_reg. apply Z.testbit_mod_pow2. lia. Qed.

Lemma to_reg_range z :
  0 <= to_reg z < 2 ^ Z.of_N RegisterBits.
Proof. unfold to_reg. apply Z.mod_pos_bound. apply Z.pow_pos_nonneg; lia. Qed.

Lemma to_reg_small z :
  0 <= z < 2 ^ Z.of_N RegisterBits -> to_reg z = z.
Proof. unfold to_reg. apply Z.mod_small. Qed.

Lemma range_bits_high z j :
  0 <= z < 2 ^ Z.of_N RegisterBits -> Z.of_N RegisterBits <= j ->
  Z.testbit z j = false.
Proof.
  intros Hz Hj. rewrite <- (to_reg_small z Hz), to_reg_bits.
  destruct (Z.ltb_spec j (Z.of_N RegisterBits)); [lia | done].
Qed.

Lemma shl1_bits (n : N) j :
  Z.testbit (Z.shiftl 1 (Z.of_N n)) j = (j =? Z.of_N n).
Proof.
  rewrite Z.shiftl_1_l, Z.pow2_bits_eqb by lia. apply Z.eqb_sym.
Qed.

Lemma ones_bits (n : N) j :
  Z.testbit (Z.shiftl 1 (Z.of_N n) - 1) j = (0 <=? j) && (j <? Z.of_N n).
Proof.
  replace (Z.shiftl 1 (Z.of_N n) - 1) with (Z.ones (Z.of_N n))
    by (unfold Z.ones; lia).
  apply Z.testbit_ones. lia.
Qed.

Lemma ones_range (n : N) :
  0 <= Z.shiftl 1 (Z.of_N n) - 1 < 2 ^ Z.of_N n.
Proof.
  rewrite Z.shiftl_1_l.
  assert (0 < 2 ^ Z.of_N n) by (apply Z.pow_pos_nonneg; lia). lia.
Qed.

(** The size of [int] and the shifts that stay within it. *)
Lemma int_bits_min : 16 <= int_bits.
Proof. unfold int_bits. lia. Qed.

Lemma shift_defined_0 : shift_defined 0.
Proof. unfold shift_defined. pose proof int_bits_min. lia. Qed.

Lemma shift_defined_lt i n : (i < n)%N -> shift_defined n -> shift_defined i.
Proof. unfold shift_defined. lia. Qed.

(** Where [shift_defined n], [1 << n] and [(1 << n) - 1] are computed
    without overflow: they are the power of two and its predecessor. *)
Lemma shift_fits_int (n : N) :
  shift_defined n ->
  0 < Z.shiftl 1 (Z.of_N n) <= INT_MAX int_bits
  /\ 0 <= Z.shiftl 1 (Z.of_N n) - 1 <= INT_MAX int_bits.
Proof.
  unfold shift_defined. intros Hn. unfold INT_MAX. rewrite Z.shiftl_1_l.
  assert (0 < 2 ^ Z.of_N n) by (apply Z.pow_pos_nonneg; lia).
  assert (2 ^ Z.of_N n < 2 ^ (int_bits - 1))
    by (apply Z.pow_lt_mono_r; lia).
  lia.
Qed.

Lemma int_shl1_exact n : shift_defined n -> int_shl1 n = Z.shiftl 1 (Z.of_N n).
Proof.
  unfold shift_defined, int_shl1. intros Hn.
  destruct (Z.ltb_spec (Z.of_N n) (int_bits - 1)); [done | lia].
Qed.

Lemma int_mask_exact n :
  shift_defined n -> int_mask n = Z.shiftl 1 (Z.of_N n) - 1.
Proof.
  intros Hn. unfold int_mask. rewrite int_shl1_exact by done.
  unfold shift_defined in Hn.
  destruct (Z.ltb_spec (Z.of_N n) (int_bits - 1)); [done | lia].
Qed.

Lemma int_shl1_bits n j :
  shift_defined n -> Z.testbit (int_shl1 n) j = (j =? Z.of_N n).
Proof. intros Hn. rewrite int_shl1_exact by done. apply shl1_bits. Qed.

(** The mask of a constructed port is a register value, whatever the
    initializer evaluates to. *)
Lemma mask_reg ddr port pin j :
  Z.testbit (bitsMask (IOPort_new ddr port pin)) j
  = (j <? Z.of_N RegisterBits) && Z.testbit (int_mask BitsCount) j.
Proof. simpl. by rewrite to_reg_bits. Qed.

(** The mask where the initializer does not overflow, bit by bit and as a
    number. *)
Lemma mask_bits ddr port pin j :
  shift_defined BitsCount ->
  Z.testbit (bitsMask (IOPort_new ddr port pin)) j
  = (j <? Z.of_N RegisterBits) && ((0 <=? j) && (j <? Z.of_N BitsCount)).
Proof. intros HI. by rewrite mask_reg, int_mask_exact, ones_bits. Qed.

Lemma mask_value ddr port pin :
  shift_defined BitsCount -> (BitsCount <= RegisterBits)%N ->
  bitsMask (IOPort_new ddr port pin)
  = Z.shiftl 1 (Z.of_N BitsCount) - 1.
Proof.
  intros HI HW. simpl. rewrite int_mask_exact by done. apply to_reg_small.
  pose proof (ones_range BitsCount).
  assert (2 ^ Z.of_N BitsCount <= 2 ^ Z.of_N RegisterBits)
    by (apply Z.pow_le_mono_r; lia).
  lia.
Qed.

(** The conversion to [bool] of [x % 2] tests the lowest bit. *)
Lemma rem2_odd x : negb (Z.rem x 2 =? 0) = Z.odd x.
Proof.
  destruct (Z.odd x) eqn:Hodd.
  - apply Z.odd_spec in Hodd as [k ->].
    destruct (Z.eqb_spec (Z.rem (2 * k + 1) 2) 0) as [E|E]; [|done].
    exfalso. revert E. Z.quot_rem_to_equations. lia.
  - rewrite <- Z.negb_even in Hodd. apply negb_false_iff in Hodd.
    apply Z.even_spec in Hodd as [k ->].
    destruct (Z.eqb_spec (Z.rem (2 * k) 2) 0) as [E|E]; [done|].
    exfalso. apply E. Z.quot_rem_to_equations. lia.
Qed.

Lemma land1_odd x : Z.land x 1 = Z.b2z (Z.odd x).
Proof.
  change 1 with (Z.ones 1) at 1. rewrite Z.land_ones by lia.
  change (2 ^ 1) with 2. rewrite Zmod_odd. by destruct (Z.odd x).
Qed.

End Bits.

(** ** Memory and the single-bit helper *)

Lemma contents_insert (m : gmap N Z) p q v :
  contents (<[p := v]> m) q = if decide (p = q) then v else contents m q.
Proof.
  unfold contents. rewrite lookup_insert. by case_decide.
Qed.

Lemma contents_insert_eq (m : gmap N Z) p v : contents (<[p := v]> m) p = v.
Proof. rewrite contents_insert. by case_decide. Qed.

Lemma contents_insert_ne (m : gmap N Z) p q v :
  p ≠ q -> contents (<[p := v]> m) q = contents m q.
Proof. intros. rewrite contents_insert. by case_decide. Qed.

Section Helper.

Context {P : Platform} {T : Template}.

Lemma checkBitNumber_ok i m :
  (i < BitsCount)%N -> checkBitNumber i m = (Ok tt, m).
Proof.
  intros Hi. unfold checkBitNumber.
  destruct (N.leb_spec BitsCount i); [lia | done].
Qed.

Lemma checkBitNumber_throw i m :
  (BitsCount <= i)%N ->
  checkBitNumber i m = (Throw invalid_argument, m).
Proof.
  intros Hi. unfold checkBitNumber.
  destruct (N.leb_spec BitsCount i); [done | lia].
Qed.

Lemma setBit_ok reg i value m :
  (i < BitsCount)%N ->
  setBit reg i value m
  = (Ok tt, <[reg := with_bit (contents m reg) i value]> m).
Proof.
  intros Hi. unfold setBit, mbind, M_bind, bind.
  rewrite checkBitNumber_ok by done. by destruct value.
Qed.

Lemma setBit_throw reg i value m :
  (BitsCount <= i)%N ->
  setBit reg i value m = (Throw invalid_argument, m).
Proof.
  intros Hi. unfold setBit, mbind, M_bind, bind.
  by rewrite checkBitNumber_throw.
Qed.

(** The bits of what [setBit] stores, whatever [1 << i] evaluates to. *)
Lemma with_bit_bits_any old i value j :
  Z.testbit (with_bit old i value) j
  = (j <? Z.of_N RegisterBits)
    && (if value then Z.testbit old j || Z.testbit (int_shl1 i) j
        else Z.testbit old j && negb (Z.testbit (int_shl1 i) j)).
Proof.
  unfold with_bit. rewrite to_reg_bits. f_equal.
  destruct (Z.ltb_spec j 0) as [Hneg|Hpos].
  - rewrite !Z.testbit_neg_r by done. by destruct value.
  - destruct value.
    + by rewrite Z.lor_spec.
    + by rewrite Z.land_spec, Z.lnot_spec.
Qed.

(** The same where [1 << i] is the power of two. *)
Lemma with_bit_bits old i value j :
  shift_defined i ->
  Z.testbit (with_bit old i value) j
  = (j <? Z.of_N RegisterBits)
    && (if j =? Z.of_N i then value else Z.testbit old j).
Proof.
  intros HI. rewrite with_bit_bits_any, int_shl1_bits by done. f_equal.
  destruct value, (j =? Z.of_N i);
    by rewrite ?orb_true_r, ?orb_false_r, ?andb_true_r, ?andb_false_r.
Qed.

Lemma with_bit_range old i value :
  0 <= with_bit old i value < 2 ^ Z.of_N RegisterBits.
Proof. apply to_reg_range. Qed.

(** On a register value, [setBit] assigns the bit and nothing else. *)
Lemma with_bit_assigned old i value :
  shift_defined i ->
  (i < RegisterBits)%N -> 0 <= old < 2 ^ Z.of_N RegisterBits ->
  bit_assigned old (with_bit old i value) i value.
Proof.
  intros HI Hi Hold. split.
  - rewrite with_bit_bits, Z.eqb_refl by done.
    destruct (Z.ltb_spec (Z.of_N i) (Z.of_N RegisterBits)); [done | lia].
  - intros j Hj. rewrite with_bit_bits by done.
    destruct (Z.eqb_spec j (Z.of_N i)); [done|].
    destruct (Z.ltb_spec j (Z.of_N RegisterBits)); [done|].
    symmetry. by apply (range_bits_high).
Qed.



End Helper.

(** ** The interface *)

Section Interface.

Context {P : Platform} {T : Template}.

(** *** Equations of the member functions *)

Lemma read_eq this m :
  read this m
  = (Ok (to_reg (Z.land (contents m (PIN this)) (bitsMask this))),
     m).
Proof. done. Qed.

Lemma read_bit_ok this i m :
  (i < BitsCount)%N ->
  read_bit this i m
  = (Ok (Z.testbit (contents m (PIN this)) (Z.of_N i)), m).
Proof.
  intros Hi. unfold read_bit, mbind, M_bind, bind.
  rewrite checkBitNumber_ok by done. simpl.
  by rewrite rem2_odd, <- Z.testbit_odd.
Qed.

Lemma read_bit_throw this i m :
  (BitsCount <= i)%N -> read_bit this i m = (Throw invalid_argument, m).
Proof.
  intros Hi. unfold read_bit, mbind, M_bind, bind.
  by rewrite checkBitNumber_throw.
Qed.

Lemma write_throw this value m :
  Z.land (contents m (DDR this)) (bitsMask this) <> bitsMask this ->
  write this value m = (Throw runtime_error, m).
Proof.
  intros Hd. unfold write, mbind, M_bind, bind. simpl.
  destruct (Z.eqb_spec (Z.land (contents m (DDR this)) (bitsMask this))
              (bitsMask this)); done.
Qed.

Lemma write_ok this value m :
  Z.land (contents m (DDR this)) (bitsMask this) = bitsMask this ->
  write this value m
  = (Ok tt,
     <[PORT this :=
         to_reg
           (Z.lor (Z.land value (bitsMask this))
              (Z.land (contents m (PORT this)) (Z.lnot (bitsMask this))))]> m).
Proof.
  intros Hd. unfold write, mbind, M_bind, bind. simpl.
  by rewrite Hd, Z.eqb_refl.
Qed.

Lemma write_bit_throw this i value m :
  Z.shiftr (contents m (DDR this)) (Z.of_N (i mod 2)) = 0 ->
  write_bit this i value m = (Throw runtime_error, m).
Proof.
  intros Hd. unfold write_bit, mbind, M_bind, bind. simpl.
  by rewrite Hd.
Qed.

Lemma write_bit_pass this i value m :
  Z.shiftr (contents m (DDR this)) (Z.of_N (i mod 2)) <> 0 ->
  write_bit this i value m
  = setBit (PORT this) i value m.
Proof.
  intros Hd. unfold write_bit, mbind, M_bind, bind. simpl.
  by destruct (Z.eqb_spec (Z.shiftr (contents m (DDR this))
                             (Z.of_N (i mod 2))) 0).
Qed.

Lemma out_eq this m :
  out this m
  = (Ok tt,
     <[DDR this :=
         to_reg
           (Z.lor (contents m (DDR this)) (bitsMask this))]> m).
Proof. done. Qed.

Lemma in_eq this m :
  in_ this m
  = (Ok tt,
     <[DDR this :=
         to_reg
           (Z.land (contents m (DDR this)) (Z.lnot (bitsMask this)))]> m).
Proof. done. Qed.

Lemma mode_ok this i value m :
  (i < BitsCount)%N ->
  (setBit (DDR this) i false ;;
   setBit (PORT this) i value) m
  = (Ok tt,
     let m1 := <[DDR this := with_bit (contents m (DDR this)) i false]> m in
     <[PORT this := with_bit (contents m1 (PORT this)) i value]> m1).
Proof.
  intros Hi. unfold mbind, M_bind, bind.
  by rewrite !setBit_ok.
Qed.

Lemma mode_throw this i value m :
  (BitsCount <= i)%N ->
  (setBit (DDR this) i false ;;
   setBit (PORT this) i value) m
  = (Throw invalid_argument, m).
Proof.
  intros Hi. unfold mbind, M_bind, bind.
  by rewrite setBit_throw.
Qed.

End Interface.

(** ** Reading *)

Section Reading.

Context {P : Platform} {T : Template}.

(** X27. For every width [1 <= BitsCount <= RegisterBits] whose mask
    [(1 << BitsCount) - 1] is computed without overflow of [int], and
    every contents [v] of the input register, [read()] returns exactly
    [v & ((1 << BitsCount) - 1)]; it does not throw and leaves the memory,
    hence every register, as it was. *)
Theorem read_all_masks_input ddr port pin (m : gmap N Z) :
  shift_defined BitsCount ->
  (1 <= BitsCount <= RegisterBits)%N ->
  read (IOPort_new ddr port pin) m
  = (Ok (Z.land (contents m pin) (Z.shiftl 1 (Z.of_N BitsCount) - 1)), m).
Proof.
  intros HI [_ HW]. rewrite read_eq, mask_value by done.
  cbn [PIN IOPort_new]. do 2 f_equal.
  apply Z.bits_inj'. intros j Hj.
  rewrite to_reg_bits, Z.land_spec, ones_bits.
  destruct (Z.ltb_spec j (Z.of_N RegisterBits)); [done|].
  destruct (Z.ltb_spec j (Z.of_N BitsCount)); [lia|].
  by rewrite !andb_false_r.
Qed.

(** C6. For every bit number [i < BitsCount] and every memory,
    [read(i)] returns [(input >> i) & 1] (as a [bool]) and leaves the
    memory, hence every register, as it was. *)
Theorem read_bit_returns_input_bit this i (m : gmap N Z) :
  (i < BitsCount)%N ->
  exists b : bool,
    read_bit this i m = (Ok b, m)
    /\ Z.b2z b = Z.land (Z.shiftr (contents m (PIN this)) (Z.of_N i)) 1.
Proof.
  intros Hi. exists (Z.testbit (contents m (PIN this)) (Z.of_N i)).
  split; [by apply read_bit_ok|].
  by rewrite land1_odd, <- Z.testbit_odd.
Qed.

End Reading.

(** ** Writing and configuring *)

Section Writing.

Context {P : Platform} {T : Template}.

(** X25. On a port whose mask [(1 << BitsCount) - 1] is computed without
    overflow of [int]: [write(value)] throws [runtime_error] and leaves the
    memory (so the output register too) unchanged exactly when
    [direction & mask != mask]; otherwise it stores
    [(value & mask) | (old output & ~mask)] into the output register, whose
    bits at positions [>= BitsCount] therefore keep their previous values,
    whatever the high bits of [value] are. *)
Theorem write_all_masked ddr port pin value (m : gmap N Z) :
  shift_defined BitsCount ->
  (BitsCount <= RegisterBits)%N ->
  reg_ok m port ->
  let mask := Z.shiftl 1 (Z.of_N BitsCount) - 1 in
  let stored :=
    Z.lor (Z.land value mask) (Z.land (contents m port) (Z.lnot mask)) in
  (Z.land (contents m ddr) mask <> mask ->
   write (IOPort_new ddr port pin) value m = (Throw runtime_error, m))
  /\ (Z.land (contents m ddr) mask = mask ->
      write (IOPort_new ddr port pin) value m
      = (Ok tt, <[port := stored]> m)
      /\ forall j, Z.of_N BitsCount <= j ->
           Z.testbit stored j = Z.testbit (contents m port) j).
Proof.
  intros HI HW Hport mask stored.
  pose proof (mask_value ddr port pin HI HW) as Hmask. fold mask in Hmask.
  assert (Hhigh : forall j, Z.of_N BitsCount <= j ->
            Z.testbit stored j = Z.testbit (contents m port) j).
  { intros j Hj. subst stored mask.
    rewrite Z.lor_spec, !Z.land_spec, Z.lnot_spec, ones_bits by lia.
    destruct (Z.ltb_spec j (Z.of_N BitsCount)); [lia|].
    by rewrite !andb_false_r, andb_true_r. }
  split.
  - intros Hd. apply write_throw. by rewrite Hmask.
  - intros Hd. split; [|done].
    rewrite write_ok by (by rewrite Hmask).
    rewrite Hmask. cbn [PORT IOPort_new]. fold stored.
    do 2 f_equal. apply Z.bits_inj'. intros j Hj. rewrite to_reg_bits.
    destruct (Z.ltb_spec j (Z.of_N RegisterBits)); [done|].
    rewrite Hhigh by lia. simpl. symmetry.
    by apply range_bits_high.
Qed.

(** C9. [out()] called twice in a row leaves the same memory, hence the
    same direction register, as [out()] called once; likewise [in()]. *)
Theorem whole_port_direction_idempotent this (m : gmap N Z) :
  (out this ;; out this) m = out this m
  /\ (in_ this ;; in_ this) m = in_ this m.
Proof.
  unfold mbind, M_bind, bind. rewrite !out_eq, !in_eq.
  rewrite !contents_insert_eq, !insert_insert_eq. split.
  - do 2 f_equal. apply Z.bits_inj'. intros j Hj.
    rewrite !to_reg_bits, !Z.lor_spec, to_reg_bits, Z.lor_spec.
    destruct (j <? Z.of_N RegisterBits), (Z.testbit (contents m (DDR this)) j),
      (Z.testbit (bitsMask this) j); done.
  - do 2 f_equal. apply Z.bits_inj'. intros j Hj.
    rewrite !to_reg_bits, !Z.land_spec, to_reg_bits, Z.land_spec,
      Z.lnot_spec by done.
    destruct (j <? Z.of_N RegisterBits), (Z.testbit (contents m (DDR this)) j),
      (Z.testbit (bitsMask this) j); done.
Qed.

(** X28. For every [i < BitsCount] with [1 << i] a positive [int], on a
    port whose three registers are three different cells: [pullUp(i)]
    clears bit [i] of the direction register and sets bit [i] of the
    output register, [hiZ(i)] clears bit [i] of both; every other bit of
    the two registers keeps its value and the input register is
    unchanged. *)
Theorem line_mode_switch this i (m : gmap N Z) :
  shift_defined i ->
  (i < BitsCount)%N -> (BitsCount <= RegisterBits)%N ->
  distinct_regs this ->
  reg_ok m (DDR this) -> reg_ok m (PORT this) ->
  exists m_up m_z : gmap N Z,
    (pullUp this i m = (Ok tt, m_up)
     /\ bit_assigned (contents m (DDR this)) (contents m_up (DDR this)) i false
     /\ bit_assigned (contents m (PORT this)) (contents m_up (PORT this)) i true
     /\ contents m_up (PIN this) = contents m (PIN this))
    /\ (hiZ this i m = (Ok tt, m_z)
        /\ bit_assigned (contents m (DDR this)) (contents m_z (DDR this)) i false
        /\ bit_assigned (contents m (PORT this)) (contents m_z (PORT this)) i false
        /\ contents m_z (PIN this) = contents m (PIN this)).
Proof.
  intros HI Hi HW (Hdp & Hdi & Hpi) Hddr Hport.
  assert (Hmode : forall value, exists m' : gmap N Z,
    (setBit (DDR this) i false ;; setBit (PORT this) i value) m = (Ok tt, m')
    /\ bit_assigned (contents m (DDR this)) (contents m' (DDR this)) i false
    /\ bit_assigned (contents m (PORT this)) (contents m' (PORT this)) i value
    /\ contents m' (PIN this) = contents m (PIN this)).
  { intros value. eexists. split; [by apply mode_ok|]. cbn zeta.
    rewrite !contents_insert_eq.
    rewrite !(contents_insert_ne _ (PORT this) (DDR this)) by done.
    rewrite !(contents_insert_ne _ (DDR this) (PORT this)) by done.
    rewrite !(contents_insert_ne _ _ (PIN this)) by done.
    rewrite contents_insert_eq.
    repeat split; try (apply with_bit_assigned; [done | lia | done]). }
  destruct (Hmode true) as (m_up & Hup), (Hmode false) as (m_z & Hz).
  by exists m_up, m_z.
Qed.


End Writing.

(** ** Failure on a bit number out of range *)

Section OutOfRange.

Context {P : Platform} {T : Template}.

(** C2 (amended). For every bit number [i >= BitsCount] and every memory:
    [read(i)], [out(i)], [in(i)], [hiZ(i)] and [pullUp(i)] throw
    [invalid_argument].  [write(i, v)] throws as well: [runtime_error]
    when its direction test, which comes before the index check, rejects
    the call, as it does whenever the direction register is 0; and
    [invalid_argument] when the test lets the call through, as it does
    whenever bit [i] of the direction register is 1.  None of these calls
    changes the memory. *)
Theorem bit_number_out_of_range this i value (m : gmap N Z) :
  (BitsCount <= i)%N ->
  read_bit this i m = (Throw invalid_argument, m)
  /\ out_bit this i m = (Throw invalid_argument, m)
  /\ in_bit this i m = (Throw invalid_argument, m)
  /\ hiZ this i m = (Throw invalid_argument, m)
  /\ pullUp this i m = (Throw invalid_argument, m)
  /\ (Z.shiftr (contents m (DDR this)) (Z.of_N (i mod 2)) = 0 ->
      write_bit this i value m = (Throw runtime_error, m))
  /\ (Z.shiftr (contents m (DDR this)) (Z.of_N (i mod 2)) <> 0 ->
      write_bit this i value m = (Throw invalid_argument, m))
  /\ (contents m (DDR this) = 0 ->
      write_bit this i value m = (Throw runtime_error, m))
  /\ (Z.testbit (contents m (DDR this)) (Z.of_N i) = true ->
      write_bit this i value m = (Throw invalid_argument, m)).
Proof.
  intros Hi.
  assert (Hpass : Z.shiftr (contents m (DDR this)) (Z.of_N (i mod 2)) <> 0 ->
                  write_bit this i value m = (Throw invalid_argument, m)).
  { intros Hd. rewrite write_bit_pass by done. by apply setBit_throw. }
  split; [by apply read_bit_throw|].
  split; [by apply setBit_throw|].
  split; [by apply setBit_throw|].
  split; [by apply mode_throw|].
  split; [by apply mode_throw|].
  split; [by apply write_bit_throw|].
  split; [exact Hpass|].
  split.
  - intros Hzero. apply write_bit_throw. rewrite Hzero. apply Z.shiftr_0_l.
  - intros Hbit. apply Hpass. intros Hz.
    pose proof (N.Div0.mod_le i 2) as Hle.
    assert (Z.testbit (Z.shiftr (contents m (DDR this)) (Z.of_N (i mod 2)))
              (Z.of_N i - Z.of_N (i mod 2)) = true) as Hb.
    { rewrite Z.shiftr_spec by lia. rewrite <- Hbit. f_equal. lia. }
    rewrite Hz, Z.testbit_0_l in Hb. done.
Qed.

End OutOfRange.

(** ** The bits above the port *)

Section HighBits.

Context {P : Platform} {T : Template}.

Lemma high_bits_kept_refl m : high_bits_kept m m.
Proof. by intros p Hp. Qed.

Lemma high_bits_kept_trans m1 m2 m3 :
  high_bits_kept m1 m2 -> high_bits_kept m2 m3 -> high_bits_kept m1 m3.
Proof.
  intros H12 H23 p Hp. destruct (H12 p Hp) as [Hp2 Hb12].
  destruct (H23 p Hp2) as [Hp3 Hb23]. split; [done|].
  intros j Hj. by rewrite Hb23, Hb12.
Qed.

(** Storing a value that agrees with the old one above the port. *)
Lemma high_bits_kept_store (m : gmap N Z) p z :
  (forall j, Z.of_N BitsCount <= j -> j < Z.of_N RegisterBits ->
     Z.testbit z j = Z.testbit (contents m p) j) ->
  high_bits_kept m (<[p := to_reg z]> m).
Proof.
  intros Hz q Hq. unfold reg_ok. rewrite contents_insert.
  case_decide as Hpq; [subst q | done]. split; [apply to_reg_range|].
  intros j Hj. rewrite to_reg_bits.
  destruct (Z.ltb_spec j (Z.of_N RegisterBits)).
  - by apply Hz.
  - symmetry. by apply range_bits_high.
Qed.

Lemma high_bits_kept_setBit reg i value m :
  shift_defined BitsCount ->
  high_bits_kept m (snd (setBit reg i value m)).
Proof.
  intros HI. destruct (N.lt_ge_cases i BitsCount) as [Hi|Hi].
  - pose proof (shift_defined_lt i BitsCount Hi HI) as Hshift.
    rewrite setBit_ok by done. apply high_bits_kept_store.
    intros j Hj _. destruct value.
    + rewrite Z.lor_spec, int_shl1_bits by done.
      destruct (Z.eqb_spec j (Z.of_N i)); [lia | apply orb_false_r].
    + rewrite Z.land_spec, Z.lnot_spec, int_shl1_bits by (done || lia).
      destruct (Z.eqb_spec j (Z.of_N i)); [lia | apply andb_true_r].
  - rewrite setBit_throw by done. apply high_bits_kept_refl.
Qed.

Lemma high_bits_kept_mode this i value m :
  shift_defined BitsCount ->
  high_bits_kept m
    (snd ((setBit (DDR this) i false ;; setBit (PORT this) i value) m)).
Proof.
  intros HI. unfold mbind, M_bind, bind.
  pose proof (high_bits_kept_setBit (DDR this) i false m HI) as H1.
  destruct (setBit (DDR this) i false m) as [[[]|e] m1]; [|done].
  eapply high_bits_kept_trans; [exact H1|]. by apply high_bits_kept_setBit.
Qed.

Lemma high_bits_kept_invoke ddr port pin c m :
  shift_defined BitsCount ->
  high_bits_kept m (invoke (IOPort_new ddr port pin) c m).
Proof.
  intros HI. set (this := IOPort_new ddr port pin).
  assert (Hmask : forall j, Z.of_N BitsCount <= j ->
            Z.testbit (bitsMask this) j = false).
  { intros j Hj. unfold this. rewrite mask_bits by done.
    destruct (Z.ltb_spec j (Z.of_N BitsCount)); [lia|].
    by rewrite !andb_false_r. }
  destruct c as [|i|v|i v| |i| |i|i|i]; unfold invoke.
  - apply high_bits_kept_refl.
  - destruct (N.lt_ge_cases i BitsCount) as [Hi|Hi].
    + rewrite read_bit_ok by done. apply high_bits_kept_refl.
    + rewrite read_bit_throw by done. apply high_bits_kept_refl.
  - destruct (Z.eq_dec (Z.land (contents m (DDR this)) (bitsMask this))
                (bitsMask this)) as [Hd|Hd].
    + rewrite write_ok by done. apply high_bits_kept_store.
      intros j Hj _.
      rewrite Z.lor_spec, !Z.land_spec, Z.lnot_spec, Hmask by lia.
      by rewrite andb_false_r, andb_true_r.
    + rewrite write_throw by done. apply high_bits_kept_refl.
  - destruct (Z.eq_dec (Z.shiftr (contents m (DDR this)) (Z.of_N (i mod 2))) 0)
      as [Hd|Hd].
    + rewrite write_bit_throw by done. apply high_bits_kept_refl.
    + rewrite write_bit_pass by done. by apply high_bits_kept_setBit.
  - rewrite out_eq. apply high_bits_kept_store. intros j Hj _.
    rewrite Z.lor_spec, Hmask by done. apply orb_false_r.
  - by apply high_bits_kept_setBit.
  - rewrite in_eq. apply high_bits_kept_store. intros j Hj _.
    rewrite Z.land_spec, Z.lnot_spec, Hmask by lia. apply andb_true_r.
  - by apply high_bits_kept_setBit.
  - by apply high_bits_kept_mode.
  - by apply high_bits_kept_mode.
Qed.

(** X26. On a port whose mask [(1 << BitsCount) - 1] is computed without
    overflow of [int]: whatever call of the interface is made, with
    whatever argument, on a memory whose three registers hold register
    values, the bits at positions [>= BitsCount] of the direction, output
    and input registers are the same after the call as before it, whether
    it returned or threw. *)
Theorem high_bits_never_altered ddr port pin c (m : gmap N Z) j :
  shift_defined BitsCount ->
  reg_ok m ddr -> reg_ok m port -> reg_ok m pin ->
  Z.of_N BitsCount <= j ->
  let m' := invoke (IOPort_new ddr port pin) c m in
  Z.testbit (contents m' ddr) j = Z.testbit (contents m ddr) j
  /\ Z.testbit (contents m' port) j = Z.testbit (contents m port) j
  /\ Z.testbit (contents m' pin) j = Z.testbit (contents m pin) j.
Proof.
  intros HI Hddr Hport Hpin Hj m'.
  pose proof (high_bits_kept_invoke ddr port pin c m HI) as Hkept.
  fold m' in Hkept.
  repeat split.
  - by apply (Hkept ddr Hddr).
  - by apply (Hkept port Hport).
  - by apply (Hkept pin Hpin).
Qed.

End HighBits.

(** ** Construction *)

Section Construction.

Context {P : Platform} {T : Template}.

(** C8 (amended). The constructor validates nothing: for every width,
    also 0 and widths beyond the register, it returns without an exception
    an object that holds the three pointers, and touches no register.  For
    every width with [0 < BitsCount <= RegisterBits] whose mask is computed
    without overflow of [int], the mask it sets, once and for the life of
    the object, is [(1 << BitsCount) - 1]. *)
Theorem mask_set_at_construction ddr port pin (m : gmap N Z) :
  (exists this,
     IOPort_ctor ddr port pin m = (Ok this, m)
     /\ DDR this = ddr /\ PORT this = port /\ PIN this = pin
     /\ ((0 < BitsCount <= RegisterBits)%N -> shift_defined BitsCount ->
         bitsMask this = Z.shiftl 1 (Z.of_N BitsCount) - 1)).
Proof.
  exists (IOPort_new ddr port pin). repeat split.
  intros [_ HW] HI. by apply mask_value.
Qed.

End Construction.

(** ** Writing one line *)

Section WriteBit.

Context {P : Platform} {T : Template}.

(** The direction test of [write(i, v)] lets the call through whenever
    line [i] is an output, and the bit is then assigned as it should. *)
Lemma write_bit_when_output this i value (m : gmap N Z) :
  shift_defined i ->
  (i < BitsCount)%N -> (BitsCount <= RegisterBits)%N ->
  reg_ok m (PORT this) ->
  Z.testbit (contents m (DDR this)) (Z.of_N i) = true ->
  exists m' : gmap N Z,
    write_bit this i value m = (Ok tt, m')
    /\ bit_assigned (contents m (PORT this)) (contents m' (PORT this)) i value.
Proof.
  intros HI Hi HW Hport Hbit. eexists. split.
  - rewrite write_bit_pass; [by apply setBit_ok|].
    intros Hd. pose proof (N.Div0.mod_le i 2) as Hle.
    assert (Z.testbit (Z.shiftr (contents m (DDR this)) (Z.of_N (i mod 2)))
              (Z.of_N i - Z.of_N (i mod 2)) = true) as Hb.
    { rewrite Z.shiftr_spec by lia. rewrite <- Hbit. f_equal. lia. }
    rewrite Hd, Z.testbit_0_l in Hb. done.
  - rewrite contents_insert_eq. apply with_bit_assigned; [done | lia | done].
Qed.

(** When [write(i, v)] throws [runtime_error], line [i] is an input. *)
Lemma write_bit_throw_input this i value (m m' : gmap N Z) :
  write_bit this i value m = (Throw runtime_error, m') ->
  m' = m /\ Z.testbit (contents m (DDR this)) (Z.of_N i) = false.
Proof.
  intros Hw.
  destruct (Z.eq_dec (Z.shiftr (contents m (DDR this)) (Z.of_N (i mod 2))) 0)
    as [Hd|Hd].
  - rewrite write_bit_throw in Hw by done. split; [congruence|].
    pose proof (N.Div0.mod_le i 2) as Hle.
    replace (Z.of_N i)
      with ((Z.of_N i - Z.of_N (i mod 2)) + Z.of_N (i mod 2)) by lia.
    rewrite <- Z.shiftr_spec by lia. rewrite Hd. apply Z.testbit_0_l.
  - rewrite write_bit_pass in Hw by done.
    destruct (N.lt_ge_cases i BitsCount) as [Hi|Hi].
    + rewrite setBit_ok in Hw by done. discriminate.
    + rewrite setBit_throw in Hw by done. discriminate.
Qed.

End WriteBit.

(** ** The interface on the port of [main.cpp] *)

Section Main.

Local Existing Instance int32.
Local Existing Instance IOPort5bits.

(** C1 (the code departs from the claim). With line 0 alone configured
    as an output, [write(2, true)] does not throw [runtime_error]: bit 2
    of the direction register is 0, yet the call returns and sets bit 2 of
    the output register. *)
Theorem write_bit_on_input_line :
  Z.testbit (contents line0_out_mem (DDR portA)) 2 = false
  /\ write_bit portA 2 true line0_out_mem
     = (Ok tt, <[PORTA := 4]> line0_out_mem).
Proof. split; vm_compute; reflexivity. Qed.

(** C2 fails as stated: with every line an input, [write(6, true)] on the
    five-line port throws [runtime_error], not [invalid_argument]. *)
Lemma write_bit_out_of_range_wrong_direction :
  (BitsCount <= 6)%N
  /\ write_bit portA 6 true main_mem = (Throw runtime_error, main_mem)
  /\ write_bit portA 6 true main_mem <> (Throw invalid_argument, main_mem).
Proof.
  split; [|split].
  - vm_compute. discriminate.
  - vm_compute. reflexivity.
  - vm_compute. discriminate.
Qed.

Lemma bit_number_out_of_range_witness :
  (BitsCount <= 6)%N
  /\ read_bit portA 6 main_mem = (Throw invalid_argument, main_mem)
  /\ out_bit portA 6 main_mem = (Throw invalid_argument, main_mem)
  /\ in_bit portA 6 main_mem = (Throw invalid_argument, main_mem)
  /\ hiZ portA 6 main_mem = (Throw invalid_argument, main_mem)
  /\ pullUp portA 6 main_mem = (Throw invalid_argument, main_mem)
  /\ (Z.shiftr (contents main_mem (DDR portA)) (Z.of_N (6 mod 2)) = 0 ->
      write_bit portA 6 true main_mem = (Throw runtime_error, main_mem))
  /\ (Z.shiftr (contents main_mem (DDR portA)) (Z.of_N (6 mod 2)) <> 0 ->
      write_bit portA 6 true main_mem = (Throw invalid_argument, main_mem))
  /\ (contents main_mem (DDR portA) = 0 ->
      write_bit portA 6 true main_mem = (Throw runtime_error, main_mem))
  /\ (Z.testbit (contents main_mem (DDR portA)) (Z.of_N 6) = true ->
      write_bit portA 6 true main_mem = (Throw invalid_argument, main_mem)).
Proof.
  assert (H : (BitsCount <= 6)%N) by (vm_compute; discriminate).
  split; [exact H|].
  exact (bit_number_out_of_range portA 6 true main_mem H).
Defined.

Lemma read_all_masks_input_witness :
  shift_defined BitsCount
  /\ (1 <= BitsCount <= RegisterBits)%N
  /\ read portA main_mem
     = (Ok (Z.land (contents main_mem PINA) (Z.shiftl 1 (Z.of_N BitsCount) - 1)),
        main_mem).
Proof.
  assert (HI : shift_defined BitsCount) by (vm_compute; reflexivity).
  assert (H : (1 <= BitsCount <= RegisterBits)%N)
    by (split; vm_compute; discriminate).
  split; [exact HI|]. split; [exact H|].
  exact (read_all_masks_input DDRA PORTA PINA main_mem HI H).
Defined.

Lemma read_bit_returns_input_bit_witness :
  (4 < BitsCount)%N
  /\ exists b : bool,
       read_bit portA 4 main_mem = (Ok b, main_mem)
       /\ Z.b2z b = Z.land (Z.shiftr (contents main_mem (PIN portA)) 4) 1.
Proof.
  assert (H : (4 < BitsCount)%N) by (vm_compute; reflexivity).
  split; [exact H|].
  exact (read_bit_returns_input_bit portA 4 main_mem H).
Defined.

Lemma reg_ok_main_mem p : reg_ok main_mem p.
Proof.
  unfold reg_ok, contents, main_mem. rewrite !lookup_insert, lookup_empty.
  repeat case_decide; vm_compute; split; discriminate || reflexivity.
Qed.

Lemma reg_ok_all_out_mem p : reg_ok all_out_mem p.
Proof.
  unfold reg_ok, contents, all_out_mem, main_mem.
  rewrite !lookup_insert, lookup_empty.
  repeat case_decide; vm_compute; split; discriminate || reflexivity.
Qed.

Lemma distinct_regs_portA : distinct_regs portA.
Proof. repeat split; vm_compute; discriminate. Qed.

(** The scenario of an 8-bit register and five lines: every line an
    output, output register 0, [write(0xFF)]. *)
Lemma write_all_masked_witness :
  shift_defined BitsCount
  /\ (BitsCount <= RegisterBits)%N
  /\ reg_ok all_out_mem PORTA
  /\ write portA 255 all_out_mem = (Ok tt, <[PORTA := 31]> all_out_mem).
Proof.
  assert (HI : shift_defined BitsCount) by (vm_compute; reflexivity).
  assert (HW : (BitsCount <= RegisterBits)%N) by (vm_compute; discriminate).
  split; [exact HI|]. split; [exact HW|]. split; [apply reg_ok_all_out_mem|].
  exact (proj1 (proj2 (write_all_masked DDRA PORTA PINA 255 all_out_mem
                         HI HW (reg_ok_all_out_mem PORTA))
                  eq_refl)).
Defined.

Lemma high_bits_never_altered_witness :
  shift_defined BitsCount
  /\ Z.of_N BitsCount <= 6
  /\ Z.testbit (contents (invoke portA (call_write 255) all_out_mem) PORTA) 6
     = Z.testbit (contents all_out_mem PORTA) 6.
Proof.
  assert (HI : shift_defined BitsCount) by (vm_compute; reflexivity).
  assert (Hj : Z.of_N BitsCount <= 6) by (vm_compute; discriminate).
  split; [exact HI|]. split; [exact Hj|].
  exact (proj1 (proj2 (high_bits_never_altered DDRA PORTA PINA
                         (call_write 255) all_out_mem 6 HI
                         (reg_ok_all_out_mem DDRA) (reg_ok_all_out_mem PORTA)
                         (reg_ok_all_out_mem PINA) Hj))).
Defined.

(** The scenario [pullUp(0)] on direction [0x1F] and output [0x00]. *)
Lemma line_mode_switch_witness :
  shift_defined 0
  /\ (0 < BitsCount)%N /\ (BitsCount <= RegisterBits)%N
  /\ distinct_regs portA
  /\ exists m_up m_z : gmap N Z,
       (pullUp portA 0 all_out_mem = (Ok tt, m_up)
        /\ bit_assigned (contents all_out_mem (DDR portA))
             (contents m_up (DDR portA)) 0 false
        /\ bit_assigned (contents all_out_mem (PORT portA))
             (contents m_up (PORT portA)) 0 true
        /\ contents m_up (PIN portA) = contents all_out_mem (PIN portA))
       /\ (hiZ portA 0 all_out_mem = (Ok tt, m_z)
           /\ bit_assigned (contents all_out_mem (DDR portA))
                (contents m_z (DDR portA)) 0 false
           /\ bit_assigned (contents all_out_mem (PORT portA))
                (contents m_z (PORT portA)) 0 false
           /\ contents m_z (PIN portA) = contents all_out_mem (PIN portA)).
Proof.
  assert (Hi : (0 < BitsCount)%N) by (vm_compute; reflexivity).
  assert (HW : (BitsCount <= RegisterBits)%N) by (vm_compute; discriminate).
  assert (HI : shift_defined 0) by (vm_compute; reflexivity).
  split; [exact HI|].
  split; [exact Hi|]. split; [exact HW|]. split; [apply distinct_regs_portA|].
  exact (line_mode_switch portA 0 all_out_mem HI Hi HW distinct_regs_portA
           (reg_ok_all_out_mem (DDR portA)) (reg_ok_all_out_mem (PORT portA))).
Defined.

Lemma mask_set_at_construction_witness :
  (0 < BitsCount <= RegisterBits)%N /\ shift_defined BitsCount
  /\ exists this,
       IOPort_ctor DDRA PORTA PINA main_mem = (Ok this, main_mem)
       /\ bitsMask this = 31.
Proof.
  assert (H : (0 < BitsCount <= RegisterBits)%N)
    by (split; vm_compute; reflexivity || discriminate).
  assert (HI : shift_defined BitsCount) by (vm_compute; reflexivity).
  split; [exact H|]. split; [exact HI|].
  destruct (mask_set_at_construction DDRA PORTA PINA main_mem)
    as (this & Hctor & _ & _ & _ & Hmask).
  exists this. split; [exact Hctor|]. exact (Hmask H HI).
Defined.

(** The scenarios of the interface on this port. *)
Example scenario_write_bit_all_inputs :
  write_bit portA 2 true main_mem = (Throw runtime_error, main_mem).
Proof. vm_compute. reflexivity. Qed.

Example scenario_read_bit_6 :
  read_bit portA 6 main_mem = (Throw invalid_argument, main_mem).
Proof. vm_compute. reflexivity. Qed.

Example scenario_pullUp_then_hiZ :
  pullUp portA 0 all_out_mem
  = (Ok tt, <[PORTA := 1]> (<[DDRA := 30]> all_out_mem))
  /\ hiZ portA 0 (<[PORTA := 1]> (<[DDRA := 30]> all_out_mem))
     = (Ok tt, <[PORTA := 0]> (<[DDRA := 30]> all_out_mem)).
Proof. split; vm_compute; reflexivity. Qed.

End Main.

(** C8 fails as stated: nine lines on an 8-bit register are outside
    [0 < BitsCount <= RegisterBits], and the port is constructed all the
    same, with the mask [(1 << 9) - 1] cut to eight bits. *)
Lemma width_not_validated :
  ~ (0 < @BitsCount IOPort9bits <= @RegisterBits IOPort9bits)%N
  /\ IOPort_new (P := int32) (T := IOPort9bits) DDRA PORTA PINA
     = mkIOPort DDRA PORTA PINA 255.
Proof.
  split.
  - intros [_ H]. vm_compute in H. by apply H.
  - vm_compute. reflexivity.
Qed.

(** ** The interface on 64-bit registers with 40 lines

    [1 << n] stays an [int] of 32 bits although the registers have 64: the
    initializer of the mask overflows, and [setBit] on line 31 works with
    [INT_MIN], which the conversion to the register type extends to the
    bits 31 to 63. *)

Section Wide.

Local Existing Instance int32.
Local Existing Instance IOPort40bits.

(** Whatever [int] the overflowing initializer yields, the mask of this
    port is not [2^40 - 1]. *)
Lemma wide_mask_wrong (P : Platform) ddr port pin :
  @IntBits P = 32%N ->
  - 2 ^ 31 <= @mask_overflow P 40 < 2 ^ 31 ->
  bitsMask (IOPort_new (P := P) ddr port pin) <> 2 ^ 40 - 1.
Proof.
  intros H32 Hint. cbn [bitsMask IOPort_new].
  assert (Hmask : int_mask (P := P) BitsCount = @mask_overflow P 40).
  { unfold int_mask, int_bits. rewrite H32. reflexivity. }
  rewrite Hmask. unfold to_reg. change (Z.of_N RegisterBits) with 64.
  destruct (Z.neg_nonneg_cases (@mask_overflow P 40)) as [Hneg|Hpos];
    Z.div_mod_to_equations; lia.
Qed.

(** C5 (the code departs from the claim). The width 40 is within
    [1 .. RegisterBits], the input register holds [2^64 - 1], and [read()]
    returns [2^64 - 1], not [v & ((1 << 40) - 1) = 2^40 - 1]. *)
Theorem read_all_on_wide_register :
  (1 <= BitsCount <= RegisterBits)%N
  /\ read wideA wide_mem = (Ok (2 ^ 64 - 1), wide_mem)
  /\ Z.land (contents wide_mem (PIN wideA)) (Z.shiftl 1 (Z.of_N BitsCount) - 1)
     = 2 ^ 40 - 1.
Proof.
  split; [split; vm_compute; discriminate|].
  split; vm_compute; reflexivity.
Qed.

(** C3 (the code departs from the claim). With the 40 lines configured as
    outputs ([direction & mask = mask] for the mask [(1 << 40) - 1]),
    [write(5)] throws [runtime_error]; and with every bit of the direction
    register at 1, [write(2^64 - 1)] on an output register that holds 0
    sets the bits at positions [>= 40] too. *)
Theorem write_all_on_wide_register :
  Z.land (contents wide_mem (DDR wideA)) (Z.shiftl 1 (Z.of_N BitsCount) - 1)
  = Z.shiftl 1 (Z.of_N BitsCount) - 1
  /\ write wideA 5 wide_mem = (Throw runtime_error, wide_mem)
  /\ contents wide_ones_mem (PORT wideA) = 0
  /\ write wideA (2 ^ 64 - 1) wide_ones_mem
     = (Ok tt, <[PORTA := 2 ^ 64 - 1]> wide_ones_mem).
Proof. repeat split; vm_compute; reflexivity. Qed.

(** C4 (the code departs from the claim). [in(31)] on a direction register
    that holds [2^64 - 1] leaves [2^31 - 1]: the bits 40 to 63, above the
    port, were 1 and are 0. *)
Theorem in_bit_on_wide_register :
  (31 < BitsCount)%N
  /\ in_bit wideA 31 wide_ones_mem
     = (Ok tt, <[DDRA := 2 ^ 31 - 1]> wide_ones_mem)
  /\ Z.testbit (contents wide_ones_mem (DDR wideA)) 40 = true
  /\ Z.testbit
       (contents (invoke wideA (call_in_bit 31) wide_ones_mem) (DDR wideA)) 40
     = false.
Proof. repeat split; vm_compute; reflexivity. Qed.

(** C7 (the code departs from the claim). [pullUp(31)] on a direction
    register that holds [2^64 - 1] and an output register that holds 0
    leaves [2^31 - 1] and [2^64 - 2^31]: bit 32, which is not bit 31, has
    changed in both registers. *)
Theorem pullUp_on_wide_register :
  (31 < BitsCount)%N
  /\ pullUp wideA 31 wide_ones_mem
     = (Ok tt,
        <[PORTA := 2 ^ 64 - 2 ^ 31]> (<[DDRA := 2 ^ 31 - 1]> wide_ones_mem))
  /\ Z.testbit (contents wide_ones_mem (DDR wideA)) 32 = true
  /\ Z.testbit (2 ^ 31 - 1) 32 = false
  /\ Z.testbit (contents wide_ones_mem (PORT wideA)) 32 = false
  /\ Z.testbit (2 ^ 64 - 2 ^ 31) 32 = true.
Proof. repeat split; vm_compute; reflexivity. Qed.

End Wide.

(** * Further properties of the interface *)

(** ** Which cells a call writes, and what a throwing call leaves *)

Section Frame.

Context {P : Platform} {T : Template}.

Lemma setBit_frame reg i value (m : gmap N Z) a :
  a <> reg -> snd (setBit reg i value m) !! a = m !! a.
Proof.
  intros Ha. destruct (N.lt_ge_cases i BitsCount) as [Hi|Hi].
  - rewrite setBit_ok by done. simpl. by rewrite lookup_insert_ne.
  - by rewrite setBit_throw.
Qed.

Lemma mode_frame this i value (m : gmap N Z) a :
  a <> DDR this -> a <> PORT this ->
  snd ((setBit (DDR this) i false ;; setBit (PORT this) i value) m) !! a
  = m !! a.
Proof.
  intros Hd Hp. destruct (N.lt_ge_cases i BitsCount) as [Hi|Hi].
  - rewrite mode_ok by done. cbn [snd]. cbn zeta.
    by rewrite !lookup_insert_ne.
  - by rewrite mode_throw.
Qed.

Lemma invoke_perform this c (m : gmap N Z) :
  snd (perform this c m) = invoke this c m.
Proof.
  destruct c; try done.
  - unfold perform, void, bind, invoke.
    by destruct (read_bit this bitNumber m) as [[b|e] m'].
Qed.

(** X1. No call of the interface writes a cell other than the direction
    and the output register: every cell that neither [DDR] nor [PORT]
    designates, the input register of a port with three separate registers
    among them, is after the call what it was before. *)
Theorem only_direction_and_output_written this c (m : gmap N Z) a :
  a <> DDR this -> a <> PORT this ->
  invoke this c m !! a = m !! a.
Proof.
  intros Hd Hp. destruct c as [|i|v|i v| |i| |i|i|i]; unfold invoke.
  - done.
  - destruct (N.lt_ge_cases i BitsCount) as [Hi|Hi].
    + by rewrite read_bit_ok.
    + by rewrite read_bit_throw.
  - destruct (Z.eq_dec (Z.land (contents m (DDR this)) (bitsMask this))
                (bitsMask this)) as [Hm|Hm].
    + rewrite write_ok by done. simpl. by rewrite lookup_insert_ne.
    + by rewrite write_throw.
  - destruct (Z.eq_dec (Z.shiftr (contents m (DDR this)) (Z.of_N (i mod 2))) 0)
      as [Hz|Hz].
    + by rewrite write_bit_throw.
    + rewrite write_bit_pass by done. by apply setBit_frame.
  - rewrite out_eq. simpl. by rewrite lookup_insert_ne.
  - by apply setBit_frame.
  - rewrite in_eq. simpl. by rewrite lookup_insert_ne.
  - by apply setBit_frame.
  - by apply mode_frame.
  - by apply mode_frame.
Qed.

(** X2. A call that throws has written nothing: the memory it leaves is
    the memory it found. *)
Theorem throwing_call_writes_nothing this c (m m' : gmap N Z) e :
  perform this c m = (Throw e, m') -> m' = m.
Proof.
  destruct c as [|i|v|i v| |i| |i|i|i]; unfold perform; intros H.
  - done.
  - unfold void, bind in H.
    destruct (N.lt_ge_cases i BitsCount) as [Hi|Hi].
    + by rewrite read_bit_ok in H.
    + rewrite read_bit_throw in H by done. congruence.
  - destruct (Z.eq_dec (Z.land (contents m (DDR this)) (bitsMask this))
                (bitsMask this)) as [Hm|Hm].
    + by rewrite write_ok in H.
    + rewrite write_throw in H by done. congruence.
  - destruct (Z.eq_dec (Z.shiftr (contents m (DDR this)) (Z.of_N (i mod 2))) 0)
      as [Hz|Hz].
    + rewrite write_bit_throw in H by done. congruence.
    + rewrite write_bit_pass in H by done.
      destruct (N.lt_ge_cases i BitsCount) as [Hi|Hi].
      * by rewrite setBit_ok in H.
      * rewrite setBit_throw in H by done. congruence.
  - by rewrite out_eq in H.
  - unfold out_bit in H. destruct (N.lt_ge_cases i BitsCount) as [Hi|Hi].
    + by rewrite setBit_ok in H.
    + rewrite setBit_throw in H by done. congruence.
  - by rewrite in_eq in H.
  - unfold in_bit in H. destruct (N.lt_ge_cases i BitsCount) as [Hi|Hi].
    + by rewrite setBit_ok in H.
    + rewrite setBit_throw in H by done. congruence.
  - unfold hiZ in H. destruct (N.lt_ge_cases i BitsCount) as [Hi|Hi].
    + by rewrite mode_ok in H.
    + rewrite mode_throw in H by done. congruence.
  - unfold pullUp in H. destruct (N.lt_ge_cases i BitsCount) as [Hi|Hi].
    + by rewrite mode_ok in H.
    + rewrite mode_throw in H by done. congruence.
Qed.

(** X3. What a call can throw: [read()], [out()] and [in()] never throw;
    [write(value)] throws nothing but [runtime_error]; [read(i)], [out(i)],
    [in(i)], [hiZ(i)] and [pullUp(i)] throw nothing but [invalid_argument],
    and only for a bit number [i >= BitsCount]; [write(i, v)] throws
    [runtime_error], or [invalid_argument] for [i >= BitsCount]. *)
Theorem exceptions_of_calls this c (m m' : gmap N Z) e :
  perform this c m = (Throw e, m') ->
  match c with
  | call_read | call_out | call_in => False
  | call_write _ => e = runtime_error
  | call_write_bit i _ =>
      e = runtime_error \/ (e = invalid_argument /\ (BitsCount <= i)%N)
  | call_read_bit i | call_out_bit i | call_in_bit i
  | call_hiZ i | call_pullUp i =>
      e = invalid_argument /\ (BitsCount <= i)%N
  end.
Proof.
  destruct c as [|i|v|i v| |i| |i|i|i]; unfold perform; intros H.
  - done.
  - unfold void, bind in H.
    destruct (N.lt_ge_cases i BitsCount) as [Hi|Hi].
    + by rewrite read_bit_ok in H.
    + rewrite read_bit_throw in H by done. split; [congruence | done].
  - destruct (Z.eq_dec (Z.land (contents m (DDR this)) (bitsMask this))
                (bitsMask this)) as [Hm|Hm].
    + by rewrite write_ok in H.
    + rewrite write_throw in H by done. congruence.
  - destruct (Z.eq_dec (Z.shiftr (contents m (DDR this)) (Z.of_N (i mod 2))) 0)
      as [Hz|Hz].
    + rewrite write_bit_throw in H by done. left. congruence.
    + rewrite write_bit_pass in H by done.
      destruct (N.lt_ge_cases i BitsCount) as [Hi|Hi].
      * by rewrite setBit_ok in H.
      * rewrite setBit_throw in H by done. right. split; [congruence | done].
  - by rewrite out_eq in H.
  - unfold out_bit in H. destruct (N.lt_ge_cases i BitsCount) as [Hi|Hi].
    + by rewrite setBit_ok in H.
    + rewrite setBit_throw in H by done. split; [congruence | done].
  - by rewrite in_eq in H.
  - unfold in_bit in H. destruct (N.lt_ge_cases i BitsCount) as [Hi|Hi].
    + by rewrite setBit_ok in H.
    + rewrite setBit_throw in H by done. split; [congruence | done].
  - unfold hiZ in H. destruct (N.lt_ge_cases i BitsCount) as [Hi|Hi].
    + by rewrite mode_ok in H.
    + rewrite mode_throw in H by done. split; [congruence | done].
  - unfold pullUp in H. destruct (N.lt_ge_cases i BitsCount) as [Hi|Hi].
    + by rewrite mode_ok in H.
    + rewrite mode_throw in H by done. split; [congruence | done].
Qed.

End Frame.

(** ** Configuring the direction *)

Section Direction.

Context {P : Platform} {T : Template}.

(** X4. For every [i < BitsCount] with [1 << i] a positive [int],
    [out(i)] returns and sets bit [i] of the direction register, [in(i)]
    returns and clears it; every other bit of the register and every other
    cell keep their values. *)
Theorem line_direction_switch this i (m : gmap N Z) :
  shift_defined i ->
  (i < BitsCount)%N -> (BitsCount <= RegisterBits)%N ->
  reg_ok m (DDR this) ->
  exists m_out m_in : gmap N Z,
    (out_bit this i m = (Ok tt, m_out)
     /\ bit_assigned (contents m (DDR this)) (contents m_out (DDR this)) i true
     /\ forall a, a <> DDR this -> m_out !! a = m !! a)
    /\ (in_bit this i m = (Ok tt, m_in)
        /\ bit_assigned (contents m (DDR this)) (contents m_in (DDR this)) i false
        /\ forall a, a <> DDR this -> m_in !! a = m !! a).
Proof.
  intros HI Hi HW Hddr. do 2 eexists. split.
  - split; [by apply setBit_ok|]. split.
    + rewrite contents_insert_eq. apply with_bit_assigned; [done | lia | done].
    + intros a Ha. by rewrite lookup_insert_ne.
  - split; [by apply setBit_ok|]. split.
    + rewrite contents_insert_eq. apply with_bit_assigned; [done | lia | done].
    + intros a Ha. by rewrite lookup_insert_ne.
Qed.

(** X5. On a port whose mask [(1 << BitsCount) - 1] is computed without
    overflow of [int]: [out()] returns and leaves bit [j] of the direction
    register at 1 for every line [j < BitsCount]; [in()] returns and
    leaves it at 0; the bits [j >= BitsCount] of the register and every
    other cell keep their values. *)
Theorem whole_port_direction_switch ddr port pin (m : gmap N Z) :
  shift_defined BitsCount ->
  (BitsCount <= RegisterBits)%N -> reg_ok m ddr ->
  exists m_out m_in : gmap N Z,
    (out (IOPort_new ddr port pin) m = (Ok tt, m_out)
     /\ (forall j, 0 <= j < Z.of_N BitsCount ->
           Z.testbit (contents m_out ddr) j = true)
     /\ (forall j, Z.of_N BitsCount <= j ->
           Z.testbit (contents m_out ddr) j = Z.testbit (contents m ddr) j)
     /\ forall a, a <> ddr -> m_out !! a = m !! a)
    /\ (in_ (IOPort_new ddr port pin) m = (Ok tt, m_in)
        /\ (forall j, 0 <= j < Z.of_N BitsCount ->
              Z.testbit (contents m_in ddr) j = false)
        /\ (forall j, Z.of_N BitsCount <= j ->
              Z.testbit (contents m_in ddr) j = Z.testbit (contents m ddr) j)
        /\ forall a, a <> ddr -> m_in !! a = m !! a).
Proof.
  intros HI HW Hddr. do 2 eexists. split.
  - split; [apply out_eq|]. cbn [DDR bitsMask IOPort_new].
    rewrite int_mask_exact by done.
    rewrite contents_insert_eq. repeat split.
    + intros j Hj. rewrite to_reg_bits, Z.lor_spec, to_reg_bits, ones_bits.
      destruct (Z.ltb_spec j (Z.of_N RegisterBits)); [|lia].
      destruct (Z.leb_spec 0 j); [|lia].
      destruct (Z.ltb_spec j (Z.of_N BitsCount)); [|lia].
      by rewrite orb_true_r.
    + intros j Hj. rewrite to_reg_bits, Z.lor_spec, to_reg_bits, ones_bits.
      destruct (Z.ltb_spec j (Z.of_N BitsCount)); [lia|].
      rewrite !andb_false_r, orb_false_r.
      destruct (Z.ltb_spec j (Z.of_N RegisterBits)); [done|].
      symmetry. by apply range_bits_high.
    + intros a Ha. by rewrite lookup_insert_ne.
  - split; [apply in_eq|]. cbn [DDR bitsMask IOPort_new].
    rewrite int_mask_exact by done.
    rewrite contents_insert_eq. repeat split.
    + intros j Hj.
      rewrite to_reg_bits, Z.land_spec, Z.lnot_spec, to_reg_bits, ones_bits
        by lia.
      destruct (Z.ltb_spec j (Z.of_N RegisterBits)); [|lia].
      destruct (Z.leb_spec 0 j); [|lia].
      destruct (Z.ltb_spec j (Z.of_N BitsCount)); [|lia].
      by rewrite andb_false_r.
    + intros j Hj.
      rewrite to_reg_bits, Z.land_spec, Z.lnot_spec, to_reg_bits, ones_bits
        by lia.
      destruct (Z.ltb_spec j (Z.of_N BitsCount)); [lia|].
      rewrite !andb_false_r, andb_true_r.
      destruct (Z.ltb_spec j (Z.of_N RegisterBits)); [done|].
      symmetry. by apply range_bits_high.
    + intros a Ha. by rewrite lookup_insert_ne.
Qed.

End Direction.

Lemma output_bit_passes d (i : N) :
  Z.testbit d (Z.of_N i) = true -> Z.shiftr d (Z.of_N (i mod 2)) <> 0.
Proof.
  intros Hbit Hz. pose proof (N.Div0.mod_le i 2) as Hle.
  assert (Z.testbit (Z.shiftr d (Z.of_N (i mod 2)))
            (Z.of_N i - Z.of_N (i mod 2)) = true) as Hb.
  { rewrite Z.shiftr_spec by lia. rewrite <- Hbit. f_equal. lia. }
  rewrite Hz, Z.testbit_0_l in Hb. done.
Qed.

(** ** The direction test of the single-line write *)

Section DirectionTest.

Context {P : Platform} {T : Template}.

(** X6. When line [i < BitsCount], with [1 << i] a positive [int], is an
    output (bit [i] of the direction register is 1), [write(i, v)]
    returns, bit [i] of the output register is [v] afterwards, and every
    other bit of that register and every other cell keep their values. *)
Theorem write_bit_on_output_line this i value (m : gmap N Z) :
  shift_defined i ->
  (i < BitsCount)%N -> (BitsCount <= RegisterBits)%N ->
  reg_ok m (PORT this) ->
  Z.testbit (contents m (DDR this)) (Z.of_N i) = true ->
  exists m' : gmap N Z,
    write_bit this i value m = (Ok tt, m')
    /\ bit_assigned (contents m (PORT this)) (contents m' (PORT this)) i value
    /\ forall a, a <> PORT this -> m' !! a = m !! a.
Proof.
  intros HI Hi HW Hport Hbit.
  destruct (write_bit_when_output this i value m HI Hi HW Hport Hbit)
    as (m' & Hrun & Hassigned).
  exists m'. split; [done|]. split; [done|].
  intros a Ha.
  pose proof (only_written := setBit_frame (PORT this) i value m a Ha).
  assert (Hpass : Z.shiftr (contents m (DDR this)) (Z.of_N (i mod 2)) <> 0).
  { intros Hz. rewrite write_bit_throw in Hrun by done. discriminate. }
  rewrite write_bit_pass in Hrun by done. by rewrite Hrun in only_written.
Qed.

(** X7. When [write(i, v)] throws [runtime_error], line [i] is an input
    (bit [i] of the direction register is 0) and nothing was written. *)
Theorem write_bit_runtime_error_means_input this i value (m m' : gmap N Z) :
  write_bit this i value m = (Throw runtime_error, m') ->
  m' = m /\ Z.testbit (contents m (DDR this)) (Z.of_N i) = false.
Proof.
  intros Hthrow.
  destruct (Z.testbit (contents m (DDR this)) (Z.of_N i)) eqn:Hbit.
  - exfalso. apply output_bit_passes in Hbit.
    rewrite write_bit_pass in Hthrow by done.
    destruct (N.lt_ge_cases i BitsCount) as [Hi|Hi].
    + by rewrite setBit_ok in Hthrow.
    + by rewrite setBit_throw in Hthrow.
  - split; [|done].
    destruct (Z.eq_dec (Z.shiftr (contents m (DDR this)) (Z.of_N (i mod 2))) 0)
      as [Hz|Hz].
    + rewrite write_bit_throw in Hthrow by done. congruence.
    + rewrite write_bit_pass in Hthrow by done.
      destruct (N.lt_ge_cases i BitsCount) as [Hi|Hi].
      * by rewrite setBit_ok in Hthrow.
      * by rewrite setBit_throw in Hthrow.
Qed.

(** X8. The direction test as the code makes it: on a direction register
    holding a register value, [write(i, v)] throws [runtime_error] exactly
    when that value is 0, or is 1 and [i] is odd. *)
Theorem write_bit_runtime_error_iff this i value (m : gmap N Z) :
  reg_ok m (DDR this) ->
  fst (write_bit this i value m) = Throw runtime_error
  <-> contents m (DDR this) = 0
      \/ (contents m (DDR this) = 1 /\ N.odd i = true).
Proof.
  intros [Hlo _]. set (d := contents m (DDR this)) in *.
  assert (Htest : fst (write_bit this i value m) = Throw runtime_error
                  <-> Z.shiftr d (Z.of_N (i mod 2)) = 0).
  { split.
    - intros Hthrow.
      destruct (Z.eq_dec (Z.shiftr d (Z.of_N (i mod 2))) 0) as [Hz|Hz];
        [done|].
      rewrite write_bit_pass in Hthrow by done.
      destruct (N.lt_ge_cases i BitsCount) as [Hi|Hi].
      + by rewrite setBit_ok in Hthrow.
      + by rewrite setBit_throw in Hthrow.
    - intros Hz. by rewrite write_bit_throw. }
  rewrite Htest. rewrite <- N.bit0_mod, N.bit0_odd.
  destruct (N.odd i); cbn [N.b2n Z.of_N].
  - rewrite Z.shiftr_div_pow2 by lia. change (2 ^ Z.pos 1) with 2.
    split.
    + intros Hz. apply Z.div_small_iff in Hz; [|lia].
      assert (d = 0 \/ d = 1) as [->| ->] by lia; auto.
    + intros [->|[-> _]]; done.
  - rewrite Z.shiftr_0_r. split; [auto|].
    intros [Hz|[_ Hf]]; [done | discriminate].
Qed.

End DirectionTest.

(** ** What is read *)

Section ReadValue.

Context {P : Platform} {T : Template}.

Lemma read_new ddr port pin (m : gmap N Z) :
  shift_defined BitsCount ->
  (BitsCount <= RegisterBits)%N ->
  read (IOPort_new ddr port pin) m
  = (Ok (contents m pin mod 2 ^ Z.of_N BitsCount), m).
Proof.
  intros HI HW. rewrite read_eq, mask_value by done.
  cbn [PIN IOPort_new]. do 2 f_equal.
  replace (Z.shiftl 1 (Z.of_N BitsCount) - 1) with (Z.ones (Z.of_N BitsCount))
    by (unfold Z.ones; lia).
  rewrite Z.land_ones by lia. apply to_reg_small.
  pose proof (Z.mod_pos_bound (contents m pin) (2 ^ Z.of_N BitsCount)) as Hb.
  assert (0 < 2 ^ Z.of_N BitsCount) by (apply Z.pow_pos_nonneg; lia).
  assert (2 ^ Z.of_N BitsCount <= 2 ^ Z.of_N RegisterBits)
    by (apply Z.pow_le_mono_r; lia).
  lia.
Qed.

(** X9. On a port whose mask [(1 << BitsCount) - 1] is computed without
    overflow of [int], [read()] returns a value between 0 and
    [2^BitsCount - 1], whatever the input register holds. *)
Theorem read_all_bounded ddr port pin (m : gmap N Z) :
  shift_defined BitsCount ->
  (BitsCount <= RegisterBits)%N ->
  exists r, read (IOPort_new ddr port pin) m = (Ok r, m)
            /\ 0 <= r <= 2 ^ Z.of_N BitsCount - 1.
Proof.
  intros HI HW. eexists. split; [by apply read_new|].
  pose proof (Z.mod_pos_bound (contents m pin) (2 ^ Z.of_N BitsCount)) as Hb.
  assert (0 < 2 ^ Z.of_N BitsCount) by (apply Z.pow_pos_nonneg; lia).
  lia.
Qed.

(** X10. The two ways of reading agree: on a port whose mask
    [(1 << BitsCount) - 1] is computed without overflow of [int], for
    every line [i < BitsCount], bit [i] of what [read()] returns is what
    [read(i)] returns. *)
Theorem read_all_agrees_with_read_bit ddr port pin i (m : gmap N Z) :
  shift_defined BitsCount ->
  (i < BitsCount)%N -> (BitsCount <= RegisterBits)%N ->
  exists (r : Z) (b : bool),
    read (IOPort_new ddr port pin) m = (Ok r, m)
    /\ read_bit (IOPort_new ddr port pin) i m = (Ok b, m)
    /\ Z.testbit r (Z.of_N i) = b.
Proof.
  intros HI Hi HW. do 2 eexists.
  split; [by apply read_new|]. split; [by apply read_bit_ok|].
  cbn [PIN IOPort_new]. rewrite Z.testbit_mod_pow2 by lia.
  destruct (Z.ltb_spec (Z.of_N i) (Z.of_N BitsCount)); [done | lia].
Qed.

End ReadValue.

(** ** Calls in sequence *)

Section Sequences.

Context {P : Platform} {T : Template}.

Lemma seq_eq {A B} (c : M A) (k : M B) (m : gmap N Z) :
  (c ;; k) m = match c m with
               | (Ok _, m') => k m'
               | (Throw e, m') => (Throw e, m')
               end.
Proof. done. Qed.


Lemma with_bit_comm old i j v1 v2 :
  shift_defined i -> shift_defined j -> i <> j ->
  with_bit (with_bit old i v1) j v2 = with_bit (with_bit old j v2) i v1.
Proof.
  intros HIi HIj Hij. apply Z.bits_inj'. intros k _.
  rewrite !with_bit_bits by done.
  destruct (Z.eqb_spec k (Z.of_N i)), (Z.eqb_spec k (Z.of_N j)); try lia;
    by destruct (k <? Z.of_N RegisterBits).
Qed.

(** X11. Of two [write(value)] in a row the second decides: on a port
    whose direction and output registers are different cells,
    [write(v1); write(v2)] ends as [write(v2)] alone does, throwing or
    not. *)
Theorem write_all_last_wins this v1 v2 (m : gmap N Z) :
  DDR this <> PORT this ->
  (write this v1 ;; write this v2) m = write this v2 m.
Proof.
  intros Hne. rewrite seq_eq.
  destruct (Z.eq_dec (Z.land (contents m (DDR this)) (bitsMask this))
              (bitsMask this)) as [Hd|Hd].
  - rewrite (write_ok this v1) by done.
    rewrite !write_ok by (by rewrite ?contents_insert_ne).
    rewrite contents_insert_eq, insert_insert_eq. do 2 f_equal.
    apply Z.bits_inj'. intros j Hj.
    rewrite !to_reg_bits, !Z.lor_spec, !Z.land_spec, !Z.lnot_spec,
      to_reg_bits, Z.lor_spec, !Z.land_spec, Z.lnot_spec by done.
    destruct (j <? Z.of_N RegisterBits), (Z.testbit (bitsMask this) j),
      (Z.testbit v2 j), (Z.testbit v1 j),
      (Z.testbit (contents m (PORT this)) j); done.
  - by rewrite !write_throw.
Qed.

(** X12. On a port whose mask [(1 << BitsCount) - 1] is computed without
    overflow of [int], [write(value)] depends on the low [BitsCount] bits
    of [value] only: two values that agree modulo [2^BitsCount] give the
    same result and the same memory. *)
Theorem write_all_ignores_high_bits ddr port pin v1 v2 (m : gmap N Z) :
  shift_defined BitsCount ->
  (BitsCount <= RegisterBits)%N ->
  v1 mod 2 ^ Z.of_N BitsCount = v2 mod 2 ^ Z.of_N BitsCount ->
  write (IOPort_new ddr port pin) v1 m = write (IOPort_new ddr port pin) v2 m.
Proof.
  intros HI HW Hv. set (this := IOPort_new ddr port pin).
  assert (Hlow : Z.land v1 (bitsMask this) = Z.land v2 (bitsMask this)).
  { unfold this. rewrite mask_value by done.
    replace (Z.shiftl 1 (Z.of_N BitsCount) - 1)
      with (Z.ones (Z.of_N BitsCount)) by (unfold Z.ones; lia).
    by rewrite !Z.land_ones by lia. }
  destruct (Z.eq_dec (Z.land (contents m (DDR this)) (bitsMask this))
              (bitsMask this)) as [Hd|Hd].
  - rewrite !write_ok by done. by rewrite Hlow.
  - by rewrite !write_throw.
Qed.

(** X13. After [out()], [write(value)] does not throw. *)
Theorem write_all_after_out ddr port pin value (m : gmap N Z) :
  exists m' : gmap N Z,
    (out (IOPort_new ddr port pin) ;; write (IOPort_new ddr port pin) value) m
    = (Ok tt, m').
Proof.
  set (this := IOPort_new ddr port pin).
  rewrite seq_eq, out_eq. eexists. apply write_ok.
  rewrite contents_insert_eq. apply Z.bits_inj'. intros j Hj.
  rewrite Z.land_spec, to_reg_bits, Z.lor_spec. unfold this.
  rewrite mask_reg. cbn [DDR IOPort_new].
  destruct (j <? Z.of_N RegisterBits), (Z.testbit (contents m ddr) j),
    (Z.testbit (int_mask BitsCount) j); done.
Qed.

(** X14. After [in()], on a port with at least one line whose mask
    [(1 << BitsCount) - 1] is computed without overflow of [int],
    [write(value)] throws [runtime_error] and the memory stays as [in()]
    left it. *)
Theorem write_all_after_in ddr port pin value (m : gmap N Z) :
  shift_defined BitsCount ->
  (0 < BitsCount)%N -> (0 < RegisterBits)%N ->
  exists m' : gmap N Z,
    in_ (IOPort_new ddr port pin) m = (Ok tt, m')
    /\ (in_ (IOPort_new ddr port pin) ;; write (IOPort_new ddr port pin) value) m
       = (Throw runtime_error, m').
Proof.
  intros HI HW HR. set (this := IOPort_new ddr port pin).
  eexists. split; [apply in_eq|].
  rewrite seq_eq, in_eq. apply write_throw.
  rewrite contents_insert_eq. intros Heq.
  apply (f_equal (fun z => Z.testbit z 0)) in Heq. revert Heq.
  rewrite Z.land_spec, to_reg_bits, Z.land_spec, Z.lnot_spec by lia.
  unfold this. rewrite mask_bits by done. cbn [DDR IOPort_new].
  destruct (Z.ltb_spec 0 (Z.of_N RegisterBits)); [|lia].
  destruct (Z.ltb_spec 0 (Z.of_N BitsCount)); [|lia].
  by destruct (Z.testbit (contents m ddr) 0).
Qed.


(** X16. Two different lines can be set in either order: for
    [i <> j], both below [BitsCount] and with [1 << i] and [1 << j]
    positive [int]s, [setBit(reg, i, v1)] followed by
    [setBit(reg, j, v2)] leaves the memory that the opposite order
    leaves; so do [out(i)] and [in(i)] on two lines. *)
Theorem setBit_lines_commute reg i j v1 v2 (m : gmap N Z) :
  shift_defined i -> shift_defined j ->
  (i < BitsCount)%N -> (j < BitsCount)%N -> i <> j ->
  (setBit reg i v1 ;; setBit reg j v2) m
  = (setBit reg j v2 ;; setBit reg i v1) m.
Proof.
  intros HIi HIj Hi Hj Hij. rewrite !seq_eq, !setBit_ok by done.
  rewrite !contents_insert_eq, !insert_insert_eq.
  by rewrite with_bit_comm.
Qed.


(** X24. Of two whole-port direction switches the second decides:
    [in(); out()] ends as [out()] alone and [out(); in()] as [in()]
    alone. *)
Theorem whole_port_direction_last_wins this (m : gmap N Z) :
  (in_ this ;; out this) m = out this m
  /\ (out this ;; in_ this) m = in_ this m.
Proof.
  split.
  all: rewrite seq_eq; rewrite ?(in_eq this m), ?(out_eq this m);
    cbn beta iota; rewrite ?in_eq, ?out_eq;
    rewrite contents_insert_eq, insert_insert_eq;
    do 2 f_equal; apply Z.bits_inj'; intros j Hj.
  - rewrite !to_reg_bits, !Z.lor_spec, to_reg_bits, Z.land_spec, Z.lnot_spec
      by done.
    destruct (j <? Z.of_N RegisterBits), (Z.testbit (contents m (DDR this)) j),
      (Z.testbit (bitsMask this) j); done.
  - rewrite !to_reg_bits, !Z.land_spec, !Z.lnot_spec, to_reg_bits, Z.lor_spec
      by done.
    destruct (j <? Z.of_N RegisterBits), (Z.testbit (contents m (DDR this)) j),
      (Z.testbit (bitsMask this) j); done.
Qed.

End Sequences.

(** ** Configure, write, read back *)

Section WriteThenRead.

Context {P : Platform} {T : Template}.

(** X18. Once [out(i)] has made line [i < BitsCount], with [1 << i] a
    positive [int], an output, [write(i, v)] returns: on a port whose
    direction and output registers are different cells, after
    [out(i); write(i, v)] bit [i] of the direction register is 1 and bit
    [i] of the output register is [v]. *)
Theorem write_bit_after_out_bit this i value (m : gmap N Z) :
  shift_defined i ->
  (i < BitsCount)%N -> (BitsCount <= RegisterBits)%N ->
  DDR this <> PORT this ->
  exists m' : gmap N Z,
    (out_bit this i ;; write_bit this i value) m = (Ok tt, m')
    /\ Z.testbit (contents m' (DDR this)) (Z.of_N i) = true
    /\ Z.testbit (contents m' (PORT this)) (Z.of_N i) = value.
Proof.
  intros HI Hi HW Hne. rewrite seq_eq. unfold out_bit.
  rewrite setBit_ok by done.
  set (m1 := <[DDR this := with_bit (contents m (DDR this)) i true]> m).
  assert (Hbit : Z.testbit (contents m1 (DDR this)) (Z.of_N i) = true).
  { unfold m1. rewrite contents_insert_eq, with_bit_bits, Z.eqb_refl by done.
    destruct (Z.ltb_spec (Z.of_N i) (Z.of_N RegisterBits)); [done | lia]. }
  rewrite write_bit_pass by (by apply output_bit_passes).
  rewrite setBit_ok by done. eexists. split; [done|]. split.
  - by rewrite contents_insert_ne.
  - rewrite contents_insert_eq, with_bit_bits, Z.eqb_refl by done.
    destruct (Z.ltb_spec (Z.of_N i) (Z.of_N RegisterBits)); [done | lia].
Qed.

(** X19. Written, then read back: on a port whose mask
    [(1 << BitsCount) - 1] is computed without overflow of [int], whose
    input pointer designates the output register and whose lines are all
    outputs, [write(value)] returns and the [read()] that follows returns
    [value & ((1 << BitsCount) - 1)]. *)
Theorem write_all_read_back ddr port value (m : gmap N Z) :
  shift_defined BitsCount ->
  (BitsCount <= RegisterBits)%N ->
  Z.land (contents m ddr) (Z.shiftl 1 (Z.of_N BitsCount) - 1)
  = Z.shiftl 1 (Z.of_N BitsCount) - 1 ->
  exists m' : gmap N Z,
    write (IOPort_new ddr port port) value m = (Ok tt, m')
    /\ read (IOPort_new ddr port port) m'
       = (Ok (Z.land value (Z.shiftl 1 (Z.of_N BitsCount) - 1)), m').
Proof.
  intros HI HW Hd. eexists. split.
  - apply write_ok. by rewrite mask_value.
  - rewrite read_new by done. do 2 f_equal.
    cbn [PORT IOPort_new]. rewrite contents_insert_eq.
    replace (Z.shiftl 1 (Z.of_N BitsCount) - 1)
      with (Z.ones (Z.of_N BitsCount)) by (unfold Z.ones; lia).
    rewrite <- Z.land_ones by lia.
    apply Z.bits_inj'. intros j Hj.
    rewrite !Z.land_spec, to_reg_bits, Z.lor_spec, !Z.land_spec,
      Z.lnot_spec, !mask_bits, Z.testbit_ones by (done || lia).
    destruct (Z.leb_spec 0 j); [|lia].
    destruct (Z.ltb_spec j (Z.of_N BitsCount)).
    + destruct (Z.ltb_spec j (Z.of_N RegisterBits)); [|lia].
      by destruct (Z.testbit value j), (Z.testbit (contents m port) j).
    + by rewrite !andb_false_r.
Qed.

(** X20. One line written, then read back: on a port whose input pointer
    designates the output register, when line [i < BitsCount], with
    [1 << i] a positive [int], is an output, [write(i, v)] returns and the
    [read(i)] that follows returns [v]. *)
Theorem write_bit_read_back this i value (m : gmap N Z) :
  shift_defined i ->
  (i < BitsCount)%N -> (BitsCount <= RegisterBits)%N ->
  PIN this = PORT this ->
  Z.testbit (contents m (DDR this)) (Z.of_N i) = true ->
  exists m' : gmap N Z,
    write_bit this i value m = (Ok tt, m')
    /\ read_bit this i m' = (Ok value, m').
Proof.
  intros HI Hi HW Hloop Hbit. eexists. split.
  - rewrite write_bit_pass by (by apply output_bit_passes).
    by apply setBit_ok.
  - rewrite read_bit_ok by done. do 2 f_equal.
    rewrite Hloop, contents_insert_eq, with_bit_bits, Z.eqb_refl by done.
    destruct (Z.ltb_spec (Z.of_N i) (Z.of_N RegisterBits)); [done | lia].
Qed.

End WriteThenRead.

(** ** Widths at the edges *)

Section Edges.

Context {P : Platform} {T : Template}.

(** X21. A port without lines: when [BitsCount] is 0, [read()] returns 0,
    and [write(value)] returns whatever the direction register holds and
    leaves the value of every register as it was. *)
Theorem port_without_lines ddr port pin value (m : gmap N Z) :
  BitsCount = 0%N -> reg_ok m port ->
  read (IOPort_new ddr port pin) m = (Ok 0, m)
  /\ exists m' : gmap N Z,
       write (IOPort_new ddr port pin) value m = (Ok tt, m')
       /\ forall a, contents m' a = contents m a.
Proof.
  intros H0 Hport.
  assert (Hmask : bitsMask (IOPort_new ddr port pin) = 0).
  { cbn [bitsMask IOPort_new]. rewrite H0.
    rewrite int_mask_exact by apply shift_defined_0. simpl.
    unfold to_reg. apply Z.mod_0_l. apply Z.pow_nonzero; lia. }
  split.
  - rewrite read_eq, Hmask, Z.land_0_r.
    unfold to_reg. rewrite Z.mod_0_l by (apply Z.pow_nonzero; lia). done.
  - eexists. split.
    + apply write_ok. by rewrite Hmask, Z.land_0_r.
    + intros a. rewrite Hmask, Z.land_0_r, Z.lor_0_l. cbn [PORT IOPort_new].
      change (Z.lnot 0) with (-1). rewrite Z.land_m1_r.
      rewrite contents_insert. case_decide as Ha; [subst a | done].
      by apply to_reg_small.
Qed.

(** X22. Lines beyond the register: for a bit number [i] with
    [RegisterBits <= i < BitsCount] and [1 << i] a positive [int] (so that
    both shifts by [i] are defined), [setBit], hence every single-line
    call that configures or switches a line, returns without an exception
    and leaves the value of every register as it was, and [read(i)]
    returns [false]. *)
Theorem line_beyond_register this reg i value (m : gmap N Z) :
  shift_defined i ->
  (RegisterBits <= i)%N -> (i < BitsCount)%N ->
  reg_ok m reg -> reg_ok m (PIN this) ->
  (exists m' : gmap N Z,
     setBit reg i value m = (Ok tt, m')
     /\ forall a, contents m' a = contents m a)
  /\ read_bit this i m = (Ok false, m).
Proof.
  intros HI HR Hi Hreg Hpin. split.
  - eexists. split; [by apply setBit_ok|].
    intros a. rewrite contents_insert. case_decide as Ha; [subst a | done].
    apply Z.bits_inj'. intros j Hj. rewrite with_bit_bits by done.
    destruct (Z.ltb_spec j (Z.of_N RegisterBits)).
    + destruct (Z.eqb_spec j (Z.of_N i)); [lia | done].
    + symmetry. by apply range_bits_high.
  - rewrite read_bit_ok by done. do 2 f_equal.
    apply (range_bits_high _ _ Hpin). lia.
Qed.

(** X23. The whole-port switch is the single-line switch of every line:
    on a port with at least one line whose mask [(1 << BitsCount) - 1] is
    computed without overflow of [int], [out(0); out(1); ...;
    out(BitsCount-1)] ends as [out()] does, and [in(0); ...;
    in(BitsCount-1)] as [in()] does. *)
Theorem whole_port_switch_line_by_line ddr port pin (m : gmap N Z) :
  shift_defined BitsCount ->
  (0 < BitsCount)%N ->
  each_line (out_bit (IOPort_new ddr port pin)) (N.to_nat BitsCount) m
  = out (IOPort_new ddr port pin) m
  /\ each_line (in_bit (IOPort_new ddr port pin)) (N.to_nat BitsCount) m
     = in_ (IOPort_new ddr port pin) m.
Proof.
  intros HI HW. set (this := IOPort_new ddr port pin).
  assert (Hshift : forall k, (k < N.to_nat BitsCount)%nat ->
            shift_defined (N.of_nat k)).
  { intros k Hk. apply (shift_defined_lt _ BitsCount); [lia | done]. }
  assert (Hprefix : forall value k, (k < N.to_nat BitsCount)%nat ->
    each_line (fun i => setBit ddr i value) (S k) m
    = (Ok tt,
       <[ddr := to_reg
                  (if value
                   then Z.lor (contents m ddr) (Z.ones (Z.of_nat (S k)))
                   else Z.land (contents m ddr)
                          (Z.lnot (Z.ones (Z.of_nat (S k)))))]> m)).
  { intros value k. induction k as [|k IH]; intros Hk.
    - cbn [each_line]. unfold bind, ret.
      rewrite setBit_ok by lia. unfold with_bit.
      rewrite int_shl1_exact by (by apply Hshift).
      change (Z.ones (Z.of_nat 1)) with 1.
      by change (Z.shiftl 1 (Z.of_N (N.of_nat 0))) with 1.
    - change (each_line (fun i => setBit ddr i value) (S (S k)))
        with (bind (each_line (fun i => setBit ddr i value) (S k))
                (fun _ => setBit ddr (N.of_nat (S k)) value)).
      unfold bind at 1. rewrite IH by lia.
      rewrite setBit_ok by lia.
      rewrite contents_insert_eq, insert_insert_eq. do 2 f_equal.
      apply Z.bits_inj'. intros j Hj.
      rewrite with_bit_bits, !to_reg_bits by (by apply Hshift).
      destruct (j <? Z.of_N RegisterBits); [|done]. cbn [andb].
      destruct value.
      + rewrite !Z.lor_spec, !Z.testbit_ones by lia.
        destruct (Z.eqb_spec j (Z.of_N (N.of_nat (S k)))),
          (Z.leb_spec 0 j), (Z.ltb_spec j (Z.of_nat (S k))),
          (Z.ltb_spec j (Z.of_nat (S (S k)))); try lia;
          by rewrite ?orb_true_r, ?orb_false_r.
      + rewrite !Z.land_spec, !Z.lnot_spec, !Z.testbit_ones by lia.
        destruct (Z.eqb_spec j (Z.of_N (N.of_nat (S k)))),
          (Z.leb_spec 0 j), (Z.ltb_spec j (Z.of_nat (S k))),
          (Z.ltb_spec j (Z.of_nat (S (S k)))); try lia;
          by rewrite ?andb_true_r, ?andb_false_r. }
  destruct (N.to_nat BitsCount) as [|k] eqn:Hn; [lia|].
  assert (Hones : Z.of_nat (S k) = Z.of_N BitsCount) by lia.
  split.
  - change (out_bit this) with (fun i => setBit ddr i true).
    rewrite Hprefix by lia. rewrite out_eq. cbn [DDR this IOPort_new].
    do 2 f_equal. rewrite Hones. apply Z.bits_inj'. intros j Hj.
    unfold this. rewrite !to_reg_bits, !Z.lor_spec, mask_bits,
      Z.testbit_ones by (done || lia).
    by destruct (j <? Z.of_N RegisterBits).
  - change (in_bit this) with (fun i => setBit ddr i false).
    rewrite Hprefix by lia. rewrite in_eq. cbn [DDR this IOPort_new].
    do 2 f_equal. rewrite Hones. apply Z.bits_inj'. intros j Hj.
    unfold this. rewrite !to_reg_bits, !Z.land_spec, !Z.lnot_spec, mask_bits,
      Z.testbit_ones by (done || lia).
    by destruct (j <? Z.of_N RegisterBits).
Qed.

End Edges.

(** ** The further properties on the ports of [main.cpp] *)

Ltac concrete_range := vm_compute; split; [discriminate | reflexivity].
Ltac concrete_le := vm_compute; discriminate.
Ltac concrete_lt := vm_compute; reflexivity.

Section MainFurther.

Local Existing Instance int32.
Local Existing Instance IOPort5bits.

Lemma only_direction_and_output_written_witness :
  PINA <> DDR portA /\ PINA <> PORT portA
  /\ invoke portA (call_pullUp 0) all_out_mem !! PINA = all_out_mem !! PINA.
Proof.
  assert (Hd : PINA <> DDR portA) by (vm_compute; discriminate).
  assert (Hp : PINA <> PORT portA) by (vm_compute; discriminate).
  split; [exact Hd|]. split; [exact Hp|].
  exact (only_direction_and_output_written portA (call_pullUp 0) all_out_mem
           PINA Hd Hp).
Defined.

Lemma throwing_call_writes_nothing_witness :
  perform portA (call_write 3) main_mem = (Throw runtime_error, main_mem)
  /\ main_mem = main_mem.
Proof.
  assert (H : perform portA (call_write 3) main_mem
              = (Throw runtime_error, main_mem)) by (vm_compute; reflexivity).
  split; [exact H|].
  exact (throwing_call_writes_nothing portA (call_write 3) main_mem main_mem
           runtime_error H).
Defined.

Lemma exceptions_of_calls_witness :
  perform portA (call_hiZ 7) main_mem = (Throw invalid_argument, main_mem)
  /\ invalid_argument = invalid_argument /\ (BitsCount <= 7)%N.
Proof.
  assert (H : perform portA (call_hiZ 7) main_mem
              = (Throw invalid_argument, main_mem))
    by (vm_compute; reflexivity).
  split; [exact H|].
  exact (exceptions_of_calls portA (call_hiZ 7) main_mem main_mem
           invalid_argument H).
Defined.

Lemma line_direction_switch_witness :
  shift_defined 3
  /\ (3 < BitsCount)%N /\ (BitsCount <= RegisterBits)%N
  /\ reg_ok main_mem (DDR portA)
  /\ exists m_out m_in : gmap N Z,
       (out_bit portA 3 main_mem = (Ok tt, m_out)
        /\ bit_assigned (contents main_mem (DDR portA))
             (contents m_out (DDR portA)) 3 true
        /\ forall a, a <> DDR portA -> m_out !! a = main_mem !! a)
       /\ (in_bit portA 3 main_mem = (Ok tt, m_in)
           /\ bit_assigned (contents main_mem (DDR portA))
                (contents m_in (DDR portA)) 3 false
           /\ forall a, a <> DDR portA -> m_in !! a = main_mem !! a).
Proof.
  assert (HI0 : shift_defined 3) by (vm_compute; reflexivity).
  assert (Hi : (3 < BitsCount)%N) by concrete_lt.
  assert (HW : (BitsCount <= RegisterBits)%N) by concrete_le.
  assert (Hd : reg_ok main_mem (DDR portA)) by concrete_range.
  split; [exact HI0|].
  split; [exact Hi|]. split; [exact HW|]. split; [exact Hd|].
  exact (line_direction_switch portA 3 main_mem HI0 Hi HW Hd).
Defined.

Lemma whole_port_direction_switch_witness :
  shift_defined BitsCount
  /\ (BitsCount <= RegisterBits)%N /\ reg_ok all_out_mem DDRA
  /\ exists m_out m_in : gmap N Z,
       (out portA all_out_mem = (Ok tt, m_out)
        /\ (forall j, 0 <= j < Z.of_N BitsCount ->
              Z.testbit (contents m_out DDRA) j = true)
        /\ (forall j, Z.of_N BitsCount <= j ->
              Z.testbit (contents m_out DDRA) j
              = Z.testbit (contents all_out_mem DDRA) j)
        /\ forall a, a <> DDRA -> m_out !! a = all_out_mem !! a)
       /\ (in_ portA all_out_mem = (Ok tt, m_in)
           /\ (forall j, 0 <= j < Z.of_N BitsCount ->
                 Z.testbit (contents m_in DDRA) j = false)
           /\ (forall j, Z.of_N BitsCount <= j ->
                 Z.testbit (contents m_in DDRA) j
                 = Z.testbit (contents all_out_mem DDRA) j)
           /\ forall a, a <> DDRA -> m_in !! a = all_out_mem !! a).
Proof.
  assert (HI0 : shift_defined BitsCount) by (vm_compute; reflexivity).
  assert (HW : (BitsCount <= RegisterBits)%N) by concrete_le.
  assert (Hd : reg_ok all_out_mem DDRA) by concrete_range.
  split; [exact HI0|].
  split; [exact HW|]. split; [exact Hd|].
  exact (whole_port_direction_switch DDRA PORTA PINA all_out_mem HI0 HW Hd).
Defined.

Lemma write_bit_on_output_line_witness :
  shift_defined 0
  /\ (0 < BitsCount)%N /\ (BitsCount <= RegisterBits)%N
  /\ reg_ok line0_out_mem (PORT portA)
  /\ Z.testbit (contents line0_out_mem (DDR portA)) 0 = true
  /\ exists m' : gmap N Z,
       write_bit portA 0 true line0_out_mem = (Ok tt, m')
       /\ bit_assigned (contents line0_out_mem (PORT portA))
            (contents m' (PORT portA)) 0 true
       /\ forall a, a <> PORT portA -> m' !! a = line0_out_mem !! a.
Proof.
  assert (HI0 : shift_defined 0) by (vm_compute; reflexivity).
  assert (Hi : (0 < BitsCount)%N) by concrete_lt.
  assert (HW : (BitsCount <= RegisterBits)%N) by concrete_le.
  assert (Hp : reg_ok line0_out_mem (PORT portA)) by concrete_range.
  assert (Hb : Z.testbit (contents line0_out_mem (DDR portA)) 0 = true)
    by (vm_compute; reflexivity).
  split; [exact HI0|].
  split; [exact Hi|]. split; [exact HW|]. split; [exact Hp|].
  split; [exact Hb|].
  exact (write_bit_on_output_line portA 0 true line0_out_mem HI0 Hi HW Hp Hb).
Defined.

Lemma write_bit_runtime_error_means_input_witness :
  write_bit portA 2 true main_mem = (Throw runtime_error, main_mem)
  /\ main_mem = main_mem
  /\ Z.testbit (contents main_mem (DDR portA)) 2 = false.
Proof.
  assert (H : write_bit portA 2 true main_mem
              = (Throw runtime_error, main_mem)) by (vm_compute; reflexivity).
  split; [exact H|].
  exact (write_bit_runtime_error_means_input portA 2 true main_mem main_mem H).
Defined.

Lemma write_bit_runtime_error_iff_witness :
  reg_ok line0_out_mem (DDR portA)
  /\ (fst (write_bit portA 3 true line0_out_mem) = Throw runtime_error
      <-> contents line0_out_mem (DDR portA) = 0
          \/ (contents line0_out_mem (DDR portA) = 1 /\ N.odd 3 = true)).
Proof.
  assert (Hd : reg_ok line0_out_mem (DDR portA)) by concrete_range.
  split; [exact Hd|].
  exact (write_bit_runtime_error_iff portA 3 true line0_out_mem Hd).
Defined.

Lemma read_all_bounded_witness :
  shift_defined BitsCount
  /\ (BitsCount <= RegisterBits)%N
  /\ exists r, read portA main_mem = (Ok r, main_mem)
               /\ 0 <= r <= 2 ^ Z.of_N BitsCount - 1.
Proof.
  assert (HI0 : shift_defined BitsCount) by (vm_compute; reflexivity).
  assert (HW : (BitsCount <= RegisterBits)%N) by concrete_le.
  split; [exact HI0|].
  split; [exact HW|].
  exact (read_all_bounded DDRA PORTA PINA main_mem HI0 HW).
Defined.

Lemma read_all_agrees_with_read_bit_witness :
  shift_defined BitsCount
  /\ (4 < BitsCount)%N /\ (BitsCount <= RegisterBits)%N
  /\ exists (r : Z) (b : bool),
       read portA main_mem = (Ok r, main_mem)
       /\ read_bit portA 4 main_mem = (Ok b, main_mem)
       /\ Z.testbit r 4 = b.
Proof.
  assert (HI0 : shift_defined BitsCount) by (vm_compute; reflexivity).
  assert (Hi : (4 < BitsCount)%N) by concrete_lt.
  assert (HW : (BitsCount <= RegisterBits)%N) by concrete_le.
  split; [exact HI0|].
  split; [exact Hi|]. split; [exact HW|].
  exact (read_all_agrees_with_read_bit DDRA PORTA PINA 4 main_mem HI0 Hi HW).
Defined.

Lemma write_all_last_wins_witness :
  DDR portA <> PORT portA
  /\ (write portA 10 ;; write portA 21) all_out_mem
     = write portA 21 all_out_mem.
Proof.
  assert (Hne : DDR portA <> PORT portA) by (vm_compute; discriminate).
  split; [exact Hne|].
  exact (write_all_last_wins portA 10 21 all_out_mem Hne).
Defined.

Lemma write_all_ignores_high_bits_witness :
  shift_defined BitsCount
  /\ (BitsCount <= RegisterBits)%N
  /\ 255 mod 2 ^ Z.of_N BitsCount = 31 mod 2 ^ Z.of_N BitsCount
  /\ write portA 255 all_out_mem = write portA 31 all_out_mem.
Proof.
  assert (HI0 : shift_defined BitsCount) by (vm_compute; reflexivity).
  assert (HW : (BitsCount <= RegisterBits)%N) by concrete_le.
  assert (Hv : 255 mod 2 ^ Z.of_N BitsCount = 31 mod 2 ^ Z.of_N BitsCount)
    by (vm_compute; reflexivity).
  split; [exact HI0|].
  split; [exact HW|]. split; [exact Hv|].
  exact (write_all_ignores_high_bits DDRA PORTA PINA 255 31 all_out_mem HI0 HW Hv).
Defined.

Lemma write_all_after_in_witness :
  shift_defined BitsCount
  /\ (0 < BitsCount)%N /\ (0 < RegisterBits)%N
  /\ exists m' : gmap N Z,
       in_ portA all_out_mem = (Ok tt, m')
       /\ (in_ portA ;; write portA 7) all_out_mem = (Throw runtime_error, m').
Proof.
  assert (HI0 : shift_defined BitsCount) by (vm_compute; reflexivity).
  assert (HW : (0 < BitsCount)%N) by concrete_lt.
  assert (HR : (0 < RegisterBits)%N) by concrete_lt.
  split; [exact HI0|].
  split; [exact HW|]. split; [exact HR|].
  exact (write_all_after_in DDRA PORTA PINA 7 all_out_mem HI0 HW HR).
Defined.

Lemma setBit_lines_commute_witness :
  shift_defined 1
  /\   shift_defined 3
  /\ (1 < BitsCount)%N /\ (3 < BitsCount)%N /\ 1%N <> 3%N
  /\ (setBit DDRA 1 true ;; setBit DDRA 3 false) all_out_mem
     = (setBit DDRA 3 false ;; setBit DDRA 1 true) all_out_mem.
Proof.
  assert (HI0 : shift_defined 1) by (vm_compute; reflexivity).
  assert (HI1 : shift_defined 3) by (vm_compute; reflexivity).
  assert (H1 : (1 < BitsCount)%N) by concrete_lt.
  assert (H3 : (3 < BitsCount)%N) by concrete_lt.
  assert (Hne : 1%N <> 3%N) by discriminate.
  split; [exact HI0|].
  split; [exact HI1|].
  split; [exact H1|]. split; [exact H3|]. split; [exact Hne|].
  exact (setBit_lines_commute DDRA 1 3 true false all_out_mem HI0 HI1 H1 H3 Hne).
Defined.

Lemma write_bit_after_out_bit_witness :
  shift_defined 2
  /\ (2 < BitsCount)%N /\ (BitsCount <= RegisterBits)%N
  /\ DDR portA <> PORT portA
  /\ exists m' : gmap N Z,
       (out_bit portA 2 ;; write_bit portA 2 true) main_mem = (Ok tt, m')
       /\ Z.testbit (contents m' (DDR portA)) 2 = true
       /\ Z.testbit (contents m' (PORT portA)) 2 = true.
Proof.
  assert (HI0 : shift_defined 2) by (vm_compute; reflexivity).
  assert (Hi : (2 < BitsCount)%N) by concrete_lt.
  assert (HW : (BitsCount <= RegisterBits)%N) by concrete_le.
  assert (Hne : DDR portA <> PORT portA) by (vm_compute; discriminate).
  split; [exact HI0|].
  split; [exact Hi|]. split; [exact HW|]. split; [exact Hne|].
  exact (write_bit_after_out_bit portA 2 true main_mem HI0 Hi HW Hne).
Defined.

Lemma write_all_read_back_witness :
  shift_defined BitsCount
  /\ (BitsCount <= RegisterBits)%N
  /\ Z.land (contents all_out_mem DDRA) (Z.shiftl 1 (Z.of_N BitsCount) - 1)
     = Z.shiftl 1 (Z.of_N BitsCount) - 1
  /\ exists m' : gmap N Z,
       write loopA 255 all_out_mem = (Ok tt, m')
       /\ read loopA m'
          = (Ok (Z.land 255 (Z.shiftl 1 (Z.of_N BitsCount) - 1)), m').
Proof.
  assert (HI0 : shift_defined BitsCount) by (vm_compute; reflexivity).
  assert (HW : (BitsCount <= RegisterBits)%N) by concrete_le.
  assert (Hd : Z.land (contents all_out_mem DDRA)
                 (Z.shiftl 1 (Z.of_N BitsCount) - 1)
               = Z.shiftl 1 (Z.of_N BitsCount) - 1)
    by (vm_compute; reflexivity).
  split; [exact HI0|].
  split; [exact HW|]. split; [exact Hd|].
  exact (write_all_read_back DDRA PORTA 255 all_out_mem HI0 HW Hd).
Defined.

Lemma write_bit_read_back_witness :
  shift_defined 4
  /\ (4 < BitsCount)%N /\ (BitsCount <= RegisterBits)%N
  /\ PIN loopA = PORT loopA
  /\ Z.testbit (contents all_out_mem (DDR loopA)) 4 = true
  /\ exists m' : gmap N Z,
       write_bit loopA 4 true all_out_mem = (Ok tt, m')
       /\ read_bit loopA 4 m' = (Ok true, m').
Proof.
  assert (HI0 : shift_defined 4) by (vm_compute; reflexivity).
  assert (Hi : (4 < BitsCount)%N) by concrete_lt.
  assert (HW : (BitsCount <= RegisterBits)%N) by concrete_le.
  assert (Hl : PIN loopA = PORT loopA) by reflexivity.
  assert (Hb : Z.testbit (contents all_out_mem (DDR loopA)) 4 = true)
    by (vm_compute; reflexivity).
  split; [exact HI0|].
  split; [exact Hi|]. split; [exact HW|]. split; [exact Hl|].
  split; [exact Hb|].
  exact (write_bit_read_back loopA 4 true all_out_mem HI0 Hi HW Hl Hb).
Defined.

Lemma whole_port_switch_line_by_line_witness :
  shift_defined BitsCount
  /\ (0 < BitsCount)%N
  /\ each_line (out_bit portA) 5 main_mem = out portA main_mem
  /\ each_line (in_bit portA) 5 all_out_mem = in_ portA all_out_mem.
Proof.
  assert (HI : shift_defined BitsCount) by (vm_compute; reflexivity).
  assert (HW : (0 < BitsCount)%N) by concrete_lt.
  split; [exact HI|]. split; [exact HW|]. split.
  - exact (proj1 (whole_port_switch_line_by_line DDRA PORTA PINA main_mem
                    HI HW)).
  - exact (proj2 (whole_port_switch_line_by_line DDRA PORTA PINA all_out_mem
                    HI HW)).
Defined.

End MainFurther.

Lemma port_without_lines_witness :
  @BitsCount IOPort0bits = 0%N
  /\ reg_ok (T := IOPort0bits) all_out_mem PORTA
  /\ read (T := IOPort0bits)
       (IOPort_new (P := int32) (T := IOPort0bits) DDRA PORTA PINA) main_mem
     = (Ok 0, main_mem).
Proof.
  assert (H0 : @BitsCount IOPort0bits = 0%N) by reflexivity.
  assert (Hp : reg_ok (T := IOPort0bits) all_out_mem PORTA)
    by concrete_range.
  assert (Hp' : reg_ok (T := IOPort0bits) main_mem PORTA) by concrete_range.
  split; [exact H0|]. split; [exact Hp|].
  exact (proj1 (port_without_lines (P := int32) (T := IOPort0bits)
                  DDRA PORTA PINA 0 main_mem H0 Hp')).
Defined.

Lemma line_beyond_register_witness :
  shift_defined (P := int32) 8
  /\ (@RegisterBits IOPort9bits <= 8)%N /\ (8 < @BitsCount IOPort9bits)%N
  /\ read_bit (T := IOPort9bits)
       (IOPort_new (P := int32) (T := IOPort9bits) DDRA PORTA PINA) 8
       main_mem
     = (Ok false, main_mem).
Proof.
  assert (HI : shift_defined (P := int32) 8) by (vm_compute; reflexivity).
  assert (HR : (@RegisterBits IOPort9bits <= 8)%N) by concrete_le.
  assert (Hi : (8 < @BitsCount IOPort9bits)%N) by concrete_lt.
  assert (Hreg : reg_ok (T := IOPort9bits) main_mem DDRA) by concrete_range.
  assert (Hpin : reg_ok (T := IOPort9bits) main_mem
                   (PIN (IOPort_new (P := int32) (T := IOPort9bits)
                           DDRA PORTA PINA)))
    by concrete_range.
  split; [exact HI|]. split; [exact HR|]. split; [exact Hi|].
  exact (proj2 (line_beyond_register (P := int32) (T := IOPort9bits)
                  (IOPort_new (P := int32) (T := IOPort9bits) DDRA PORTA PINA)
                  DDRA 8 true main_mem HI HR Hi Hreg Hpin)).
Defined.
